(** * mix: finite and infinite datasets with resettable random streams

    A shallow embedding of [src/rng.py], [src/dist.py] and [src/datasets.py].

    Python objects are records of their attributes and every method is a
    function from the object's state to a result and the next state.  The
    object graph is a strict tree (a dataset owns its distributions and its
    children), so an attribute that refers to another object is modelled by the
    value of that object.  Exceptions are the [Raise] results of [result]. *)

From Stdlib Require Import ZArith QArith String List Bool Lia Lqa.
Import ListNotations.

Set Implicit Arguments.
Set Warnings "-register-all".

(** ** Python results *)

Inductive exn : Type :=
| IndexError
| AttributeError
| ValueError
| TypeError
| StopIteration.

Inductive result (A : Type) : Type :=
| Ok (a : A)
| Raise (e : exn).

Arguments Ok {A} a.
Arguments Raise {A} e.

Definition bind {A B : Type} (r : result A) (k : A -> result B) : result B :=
  match r with
  | Ok a => k a
  | Raise e => Raise e
  end.

Notation "x <- r ;; k" := (bind r (fun x => k))
  (at level 61, r at next level, right associativity).

(** [l[i]] on a Python list: a negative index counts from the end, and an
    index outside [-len(l), len(l)) raises [IndexError]. *)
Definition list_getitem {A : Type} (l : list A) (i : Z) : result A :=
  let n := Z.of_nat (length l) in
  let j := if (i <? 0)%Z then (i + n)%Z else i in
  if ((0 <=? j) && (j <? n))%Z
  then match nth_error l (Z.to_nat j) with
       | Some x => Ok x
       | None => Raise IndexError
       end
  else Raise IndexError.

(** Python's [sum] over a list of integers. *)
Definition sum (l : list Z) : Z := fold_left Z.add l 0%Z.

(** ** Finite datasets ([FiniteDataset], [MixedFiniteDataset],
       [MyFiniteDataset]) *)

Module Finite.

Local Open Scope Z_scope.

(** What [__getitem__] can return: an element, or [None] when
    [MixedFiniteDataset.__getitem__] leaves its loop without a [return]. *)
Inductive value : Type :=
| VInt (z : Z)
| VNone.

(** The attributes of the two concrete classes: [idx] and [size] are set by
    [FiniteDataset.__init__], [data] by [MyFiniteDataset.__init__], [datasets]
    and [lens] by [MixedFiniteDataset.__init__]. *)
Inductive FiniteDataset : Type :=
| MyFiniteDataset (data : list Z) (idx size : Z)
| MixedFiniteDataset (datasets : list FiniteDataset) (lens : list Z)
                     (idx size : Z).

Definition idx (d : FiniteDataset) : Z :=
  match d with
  | MyFiniteDataset _ i _ => i
  | MixedFiniteDataset _ _ i _ => i
  end.

Definition size (d : FiniteDataset) : Z :=
  match d with
  | MyFiniteDataset _ _ s => s
  | MixedFiniteDataset _ _ _ s => s
  end.

Definition set_idx (d : FiniteDataset) (i : Z) : FiniteDataset :=
  match d with
  | MyFiniteDataset data _ s => MyFiniteDataset data i s
  | MixedFiniteDataset ds ls _ s => MixedFiniteDataset ds ls i s
  end.

(** [__len__]: [len(self.data)] for a leaf, [self.size] for a mixture. *)
Definition len (d : FiniteDataset) : Z :=
  match d with
  | MyFiniteDataset data _ _ => Z.of_nat (length data)
  | MixedFiniteDataset _ _ _ s => s
  end.

(** [MyFiniteDataset.__init__], for any backing list; the class of the source
    uses [[0, 1, 2, 3]]. *)
Definition MyFiniteDataset_of (data : list Z) : FiniteDataset :=
  MyFiniteDataset data 0 (Z.of_nat (length data)).

Definition MyFiniteDataset_init : FiniteDataset :=
  MyFiniteDataset_of [0; 1; 2; 3].

(** [MixedFiniteDataset.__init__]. *)
Definition MixedFiniteDataset_init (datasets : list FiniteDataset)
  : FiniteDataset :=
  let lens := map len datasets in
  MixedFiniteDataset datasets lens 0 (sum lens).

(** [__getitem__].  The leaf indexes its list; the mixture walks
    [zip(self.datasets, self.lens)] and falls out of the loop, returning
    [None], when no child takes the index. *)
Fixpoint getitem (d : FiniteDataset) (i : Z) : result value :=
  match d with
  | MyFiniteDataset data _ _ =>
      x <- list_getitem data i ;; Ok (VInt x)
  | MixedFiniteDataset datasets lens _ _ =>
      (fix loop (ds : list FiniteDataset) (ls : list Z) (i : Z)
         : result value :=
         match ds, ls with
         | dataset :: ds', sz :: ls' =>
             if i <? sz then getitem dataset i else loop ds' ls' (i - sz)
         | _, _ => Ok VNone
         end) datasets lens i
  end.

(** The loop of [MixedFiniteDataset.__getitem__] on its own. *)
Fixpoint walk (ds : list FiniteDataset) (ls : list Z) (i : Z)
  : result value :=
  match ds, ls with
  | dataset :: ds', sz :: ls' =>
      if i <? sz then getitem dataset i else walk ds' ls' (i - sz)
  | _, _ => Ok VNone
  end.

(** [FiniteDataset.__next__]. *)
Definition next (d : FiniteDataset) : result value * FiniteDataset :=
  if size d <=? idx d then (Raise StopIteration, d)
  else match getitem d (idx d) with
       | Ok item => (Ok item, set_idx d (idx d + 1))
       | Raise e => (Raise e, d)
       end.

(** [Dataset._reset] is [pass]; [FiniteDataset.reset] calls it and returns. *)
Definition _reset (d : FiniteDataset) : FiniteDataset := d.

Definition reset (d : FiniteDataset) : FiniteDataset := _reset d.

(** [FiniteDataset.__add__] and its override [MixedFiniteDataset.__add__],
    which reads [other.datasets]: a leaf has no such attribute. *)
Definition add (self other : FiniteDataset) : result FiniteDataset :=
  match self with
  | MyFiniteDataset _ _ _ => Ok (MixedFiniteDataset_init [self; other])
  | MixedFiniteDataset datasets _ _ _ =>
      match other with
      | MixedFiniteDataset datasets' _ _ _ =>
          Ok (MixedFiniteDataset_init (datasets ++ datasets'))
      | MyFiniteDataset _ _ _ => Raise AttributeError
      end
  end.

(** Taking up to [n] elements from the iterator: iteration stops at the first
    exception ([StopIteration] on exhaustion). *)
Fixpoint take (n : nat) (d : FiniteDataset) : list value * FiniteDataset :=
  match n with
  | O => ([], d)
  | S n' =>
      match next d with
      | (Ok v, d') => let (vs, d'') := take n' d' in (v :: vs, d'')
      | (Raise _, d') => ([], d')
      end
  end.

(** A full iteration, [list(d)]: at most [size d - idx d] elements remain. *)
Definition iterate (d : FiniteDataset) : list value * FiniteDataset :=
  take (Z.to_nat (size d - idx d)) d.

(** The objects the constructors build: [size] is the length, and a mixture
    records the lengths of its children. *)
Fixpoint wf (d : FiniteDataset) : Prop :=
  match d with
  | MyFiniteDataset data _ s => s = Z.of_nat (length data)
  | MixedFiniteDataset datasets lens _ s =>
      lens = map len datasets /\ s = sum lens /\
      (fix all (ds : list FiniteDataset) : Prop :=
         match ds with
         | [] => True
         | d' :: ds' => wf d' /\ all ds'
         end) datasets
  end.

Fixpoint all_wf (ds : list FiniteDataset) : Prop :=
  match ds with
  | [] => True
  | d :: ds' => wf d /\ all_wf ds'
  end.

(** A caller's sequence of [next(ds)] and [ds.reset()] calls on a finite
    dataset: the results of the [next] calls and the state they leave. *)
Inductive op : Type :=
| Next
| Reset.

Fixpoint run (ops : list op) (d : FiniteDataset)
  : list (result value) * FiniteDataset :=
  match ops with
  | [] => ([], d)
  | Next :: ops' =>
      let (r, d') := next d in
      let (rs, d'') := run ops' d' in
      (r :: rs, d'')
  | Reset :: ops' => run ops' (reset d)
  end.

End Finite.

(** ** A small stream

    A generator that can be run: a linear congruential step on sixteen
    states, whose draws are the sixteenths in [0, 1).  It stands where numpy's
    generator stands when the datasets below are evaluated. *)

Module Lcg.

Definition G : Type := Z.

Definition default_rng (seed : Z) : G := seed.

Definition advance (g : G) : G := ((g * 5 + 3) mod 16)%Z.

(** The draw in [0, 1) that follows state [g]. *)
Definition unit (g : G) : Q := Qmake (advance g) 16.

Definition rng_uniform (g : G) (lo hi : Q) : Q * G :=
  (lo + (hi - lo) * unit g, advance g).

(** The weights are ignored; no items is an error. *)
Definition rng_choice (g : G) (n : nat) (ps : option (list Q))
  : option (nat * G) :=
  match n with
  | O => None
  | S _ => Some (Z.to_nat (advance g mod Z.of_nat n), advance g)
  end.

(** Powers with an integer exponent; the integer part of any other. *)
Definition np_power (x p : Q) : Q :=
  Qpower x (Qnum p / Zpos (Qden p)).

End Lcg.

(** ** numpy's first draw at seed 42

    [np.random.default_rng(42).random()] is [0.7739560485559633], the double
    [1742794085938889 / 2^51].  The stream below replays it: its first draw
    is that number and every later draw is one half; [uniform(lo, hi)] is
    [lo + (hi - lo) * random()], as in numpy. *)

Module Recorded.

Definition first_draw : Q := 1742794085938889 # 2251799813685248.

(** The state is the number of draws made. *)
Definition G : Type := nat.

Definition default_rng (seed : Z) : G := O.

Definition unit (g : G) : Q :=
  match g with
  | O => first_draw
  | S _ => 1 # 2
  end.

Definition rng_uniform (g : G) (lo hi : Q) : Q * G :=
  (lo + (hi - lo) * unit g, S g).

Definition rng_choice (g : G) (n : nat) (ps : option (list Q))
  : option (nat * G) :=
  match n with
  | O => None
  | S _ => Some (O, S g)
  end.

Definition np_power (x p : Q) : Q := Lcg.np_power x p.

End Recorded.

(** ** Random streams, distributions and infinite datasets *)

Module Infinite.

(** [seed=42], the default argument of [reset_rng] and of every constructor. *)
Definition default_seed : Z := 42%Z.

(** [RNGUser]: an object whose stream can be re-created from a seed. *)
Class RNGUser (A : Type) : Type := reset_rng : A -> Z -> A.

(** The objects [reset] reaches, seen from the dataset on which it is
    called: its own stream, the stream behind a parent distribution, or one of
    these inside the [i]-th child. *)
Inductive target : Type :=
| Own
| Parent (name : string)
| Child (i : nat) (t : target).

(** One call of [reset_rng], with the seed it passes. *)
Definition event : Type := (target * Z)%type.

Definition under (i : nat) (e : event) : event := (Child i (fst e), snd e).

Inductive op : Type :=
| Next
| Reset.

(** What the script at the end of [datasets.py] prints: a sample, or the
    word [reset]. *)
Inductive line : Type :=
| Print (el : Q)
| PrintReset.

Section Stream.

(** numpy is outside the repository: a [Generator] is a state of type [G],
    [np.random.default_rng(seed)] builds one, and a draw returns its value
    with the next state.  [rng_choice g n p] is [g.choice(a, p=p)] on a list
    of [n] items, as the index of the item; [None] is numpy's [ValueError]
    (no items, weights that are not a distribution over them).  Floats are
    idealised as rationals. *)
Variable G : Type.
Variable default_rng : Z -> G.
Variable rng_uniform : G -> Q -> Q -> Q * G.
Variable rng_choice : G -> nat -> option (list Q) -> option (nat * G).
Variable np_power : Q -> Q -> Q.

(** *** [dist.py] *)

Record UniformContinuous : Type := mkUniform
  { u_seed : Z; u_rng : G; lo : Q; hi : Q }.

(** A [PowerContinuous] never gets an [rng] attribute: its [reset_rng]
    override writes the stream of [uniform]. *)
Record PowerContinuous : Type := mkPower
  { p_seed : Z; power : Q; uniform : UniformContinuous }.

Inductive Continuous : Type :=
| Uniform (u : UniformContinuous)
| Power (p : PowerContinuous).

#[export] Instance UniformContinuous_RNGUser : RNGUser UniformContinuous :=
  fun u seed => mkUniform (u_seed u) (default_rng seed) (lo u) (hi u).

#[export] Instance PowerContinuous_RNGUser : RNGUser PowerContinuous :=
  fun p seed => mkPower (p_seed p) (power p) (reset_rng (uniform p) seed).

#[export] Instance Continuous_RNGUser : RNGUser Continuous :=
  fun c seed =>
    match c with
    | Uniform u => Uniform (reset_rng u seed)
    | Power p => Power (reset_rng p seed)
    end.

(** [Continuous.__init__] stores the seed and calls [reset_rng(seed)];
    [UniformContinuous.__init__] then stores the bounds. *)
Definition UniformContinuous_init (lo hi : Q) (seed : Z)
  : UniformContinuous :=
  mkUniform seed (default_rng seed) lo hi.

(** [PowerContinuous.__init__]: the inner uniform is built with the default
    seed, then [Continuous.__init__] re-seeds it with [seed]. *)
Definition PowerContinuous_init (lo hi power : Q) (seed : Z)
  : PowerContinuous :=
  reset_rng (mkPower seed power (UniformContinuous_init lo hi default_seed))
            seed.

Definition sample_uniform (u : UniformContinuous) : Q * UniformContinuous :=
  let (x, g) := rng_uniform (u_rng u) (lo u) (hi u) in
  (x, mkUniform (u_seed u) g (lo u) (hi u)).

Definition sample_power (p : PowerContinuous) : Q * PowerContinuous :=
  let (x, u) := sample_uniform (uniform p) in
  (np_power x (power p), mkPower (p_seed p) (power p) u).

Definition sample (c : Continuous) : Q * Continuous :=
  match c with
  | Uniform u => let (x, u') := sample_uniform u in (x, Uniform u')
  | Power p => let (x, p') := sample_power p in (x, Power p')
  end.

(** The [seed] attribute of a distribution. *)
Definition seed (c : Continuous) : Z :=
  match c with
  | Uniform u => u_seed u
  | Power p => p_seed p
  end.

(** numpy's [uniform(lo, hi)] raises [ValueError] when [hi < lo], before it
    draws; [rng_uniform] stands for the draws that return.  A distribution
    whose draws return has [lo <= hi]: what is said below about the samples
    of a dataset is said of parents with such bounds. *)
Definition valid_bounds (c : Continuous) : Prop :=
  match c with
  | Uniform u => lo u <= hi u
  | Power p => lo (uniform p) <= hi (uniform p)
  end.

(** *** [datasets.py]: infinite datasets *)

(** [parent_vars] is a dict, iterated in insertion order; [kwargs] is the
    dict of draws passed to [gen_sample]. *)
Definition parent_vars : Type := list (string * Continuous).
Definition kwargs : Type := list (string * Q).

(** A subclass of [InfiniteDataset] that supplies [gen_sample] (as
    [MyInfiniteDataset] does), or a [MixedInfiniteDataset]. *)
Inductive InfiniteDataset : Type :=
| Leaf (seed : Z) (rng : G) (pv : parent_vars)
       (gen_sample : kwargs -> result Q)
| MixedInfiniteDataset (seed : Z) (rng : G)
       (datasets : list InfiniteDataset) (ps : option (list Q)).

Definition ds_seed (d : InfiniteDataset) : Z :=
  match d with
  | Leaf s _ _ _ => s
  | MixedInfiniteDataset s _ _ _ => s
  end.

Definition ds_rng (d : InfiniteDataset) : G :=
  match d with
  | Leaf _ g _ _ => g
  | MixedInfiniteDataset _ g _ _ => g
  end.

Definition with_seed (s : Z) (d : InfiniteDataset) : InfiniteDataset :=
  match d with
  | Leaf _ g pv gen => Leaf s g pv gen
  | MixedInfiniteDataset _ g ds ps => MixedInfiniteDataset s g ds ps
  end.

(** [InfiniteDataset] inherits [reset_rng] from [RNGUser]: it writes the
    dataset's own [rng]. *)
#[export] Instance InfiniteDataset_RNGUser : RNGUser InfiniteDataset :=
  fun d seed =>
    match d with
    | Leaf s _ pv gen => Leaf s (default_rng seed) pv gen
    | MixedInfiniteDataset s _ ds ps =>
        MixedInfiniteDataset s (default_rng seed) ds ps
    end.

(** The loop of [InfiniteDataset.reset] over [self.parent_vars.values()]:
    [dist.reset_rng(dist.seed)].  The [parent_vars] of a mixture are the
    empty dict. *)
Definition reset_parent_vars (d : InfiniteDataset) : InfiniteDataset :=
  match d with
  | Leaf s g pv gen =>
      Leaf s g
           (map (fun nd => (fst nd, reset_rng (snd nd) (seed (snd nd)))) pv)
           gen
  | MixedInfiniteDataset _ _ _ _ => d
  end.

(** [InfiniteDataset.sample_parent_vars]. *)
Fixpoint sample_parent_vars (pv : parent_vars) : kwargs * parent_vars :=
  match pv with
  | [] => ([], [])
  | (name, dist) :: pv' =>
      let (x, dist') := sample dist in
      let (kw, pv'') := sample_parent_vars pv' in
      ((name, x) :: kw, (name, dist') :: pv'')
  end.

(** [gen_sample] applied to the draws of [sample_parent_vars], which is
    [__next__] and also what a mixture runs on the child it has chosen (the
    [parent_vars] of a mixture are the empty dict, and its [gen_sample] takes
    no keyword).  The result carries, before the sample, the indices chosen
    by the mixtures on the way down.  An index that [choice] returns outside
    the list (numpy never does) finds no child. *)
Fixpoint step (d : InfiniteDataset)
  : result (list nat * Q) * InfiniteDataset :=
  match d with
  | Leaf s g pv gen =>
      let (kw, pv') := sample_parent_vars pv in
      (x <- gen kw ;; Ok ([], x), Leaf s g pv' gen)
  | MixedInfiniteDataset s g datasets ps =>
      match rng_choice g (length datasets) ps with
      | None => (Raise ValueError, d)
      | Some (i, g') =>
          let (r, datasets') :=
            (fix on_child (l : list InfiniteDataset) (i : nat)
               : result (list nat * Q) * list InfiniteDataset :=
               match l with
               | [] => (Raise IndexError, [])
               | c :: l' =>
                   match i with
                   | O => let (r, c') := step c in (r, c' :: l')
                   | S i' => let (r, l'') := on_child l' i' in (r, c :: l'')
                   end
               end) datasets i in
          (p <- r ;; Ok (i :: fst p, snd p),
           MixedInfiniteDataset s g' datasets' ps)
      end
  end.

(** [step] on the [i]-th dataset of a list. *)
Fixpoint on_child (l : list InfiniteDataset) (i : nat)
  : result (list nat * Q) * list InfiniteDataset :=
  match l with
  | [] => (Raise IndexError, [])
  | c :: l' =>
      match i with
      | O => let (r, c') := step c in (r, c' :: l')
      | S i' => let (r, l'') := on_child l' i' in (r, c :: l'')
      end
  end.

(** [__next__]: the sample alone. *)
Definition next (d : InfiniteDataset) : result Q * InfiniteDataset :=
  let (r, d') := step d in (p <- r ;; Ok (snd p), d').

(** [reset], with the calls of [reset_rng] it makes, in program order.
    [InfiniteDataset.reset]: [_reset()] (which is [pass]), [reset_rng()] with
    the default seed, then [dist.reset_rng(dist.seed)] for every parent.
    [MixedInfiniteDataset.reset]: [ds.reset()] for every child, then
    [reset_rng()]. *)
Fixpoint reset_trace (d : InfiniteDataset) : list event * InfiniteDataset :=
  match d with
  | Leaf s g pv gen =>
      ((Own, default_seed)
         :: map (fun nd => (Parent (fst nd), seed (snd nd))) pv,
       reset_parent_vars (reset_rng (Leaf s g pv gen) default_seed))
  | MixedInfiniteDataset s g datasets ps =>
      let (evs, datasets') :=
        (fix each (l : list InfiniteDataset) (i : nat)
           : list event * list InfiniteDataset :=
           match l with
           | [] => ([], [])
           | ds :: l' =>
               let (e, ds') := reset_trace ds in
               let (es, l'') := each l' (S i) in
               (map (under i) e ++ es, ds' :: l'')
           end) datasets O in
      (evs ++ [(Own, default_seed)],
       reset_rng (MixedInfiniteDataset s g datasets' ps) default_seed)
  end.

(** The loop over the children in [MixedInfiniteDataset.reset]. *)
Fixpoint reset_each (l : list InfiniteDataset) (i : nat)
  : list event * list InfiniteDataset :=
  match l with
  | [] => ([], [])
  | ds :: l' =>
      let (e, ds') := reset_trace ds in
      let (es, l'') := reset_each l' (S i) in
      (map (under i) e ++ es, ds' :: l'')
  end.

Definition reset (d : InfiniteDataset) : InfiniteDataset :=
  snd (reset_trace d).

(** The calls made while the children of a mixture are reset, child after
    child from index [i]: each child's own trace, seen from the mixture. *)
Fixpoint child_events (l : list InfiniteDataset) (i : nat) : list event :=
  match l with
  | [] => []
  | ds :: l' => map (under i) (fst (reset_trace ds)) ++ child_events l' (S i)
  end.

(** [InfiniteDataset.__init__]: the attributes are stored and
    [Dataset.__init__] calls [self.reset()], which creates [rng]; the stream
    given to the constructor term below is overwritten by it. *)
Definition InfiniteDataset_init (pv : parent_vars)
           (gen_sample : kwargs -> result Q) (seed : Z) : InfiniteDataset :=
  reset (Leaf seed (default_rng default_seed) pv gen_sample).

(** [MixedInfiniteDataset.__init__]: the length check, then
    [InfiniteDataset.__init__({}, seed)], whose [self.reset()] is the
    override. *)
Definition MixedInfiniteDataset_init (datasets : list InfiniteDataset)
           (ps : option (list Q)) (seed : Z) : result InfiniteDataset :=
  match ps with
  | Some p =>
      if negb (length datasets =? length p)%nat
      then Raise ValueError
      else Ok (reset (MixedInfiniteDataset seed (default_rng default_seed)
                                           datasets ps))
  | None =>
      Ok (reset (MixedInfiniteDataset seed (default_rng default_seed)
                                      datasets ps))
  end.

(** [MyInfiniteDataset]: parents [l] and [frac], combined as [frac * l].
    A missing keyword is [None], which [*] rejects. *)
Fixpoint lookup (name : string) (kw : kwargs) : option Q :=
  match kw with
  | [] => None
  | (n, x) :: kw' => if String.eqb n name then Some x else lookup name kw'
  end.

Definition MyInfiniteDataset_gen_sample (kw : kwargs) : result Q :=
  match lookup "frac" kw, lookup "l" kw with
  | Some frac, Some l => Ok (frac * l)
  | _, _ => Raise TypeError
  end.

Definition MyInfiniteDataset_init (lmin lmax power : Q) : InfiniteDataset :=
  InfiniteDataset_init
    [("l"%string, Uniform (UniformContinuous_init lmin lmax default_seed));
     ("frac"%string, Power (PowerContinuous_init 0 1 power default_seed))]
    MyInfiniteDataset_gen_sample default_seed.

(** The first [n] results of iterating, with the choices made. *)
Fixpoint take (n : nat) (d : InfiniteDataset)
  : list (result (list nat * Q)) * InfiniteDataset :=
  match n with
  | O => ([], d)
  | S n' =>
      let (r, d') := step d in
      let (rs, d'') := take n' d' in
      (r :: rs, d'')
  end.

(** A caller's sequence of [next(ds)] and [ds.reset()] calls, with the
    results of the [next] calls. *)
Fixpoint run (ops : list op) (d : InfiniteDataset) : list (result Q) :=
  match ops with
  | [] => []
  | Next :: ops' => let (r, d') := next d in r :: run ops' d'
  | Reset :: ops' => run ops' (reset d)
  end.

(** The state a caller's sequence of calls leaves. *)
Fixpoint exec (ops : list op) (d : InfiniteDataset) : InfiniteDataset :=
  match ops with
  | [] => d
  | Next :: ops' => exec ops' (snd (next d))
  | Reset :: ops' => exec ops' (reset d)
  end.

(** The stream [default_rng(42)] after [k] draws of [uniform(lo, hi)]. *)
Definition drawn (lo hi : Q) (k : nat) : G :=
  Nat.iter k (fun g => snd (rng_uniform g lo hi)) (default_rng default_seed).

(** *** The script of [datasets.py]

    [ds2], [ds5] and [ds6] as the script builds them; [ds], [ds3] and
    [ds4 = ds + ds3] print nothing.  The loop is
    [for i, el in enumerate(ds6)]: it prints [el], at [i == 5] and
    [i == 10] prints [reset] and calls [ds6.reset()], and breaks at
    [i == 20].  An exception of [next] ends the script, [StopIteration] ends
    the loop.  [fuel] bounds the number of iterations. *)
Definition ds2 : InfiniteDataset := MyInfiniteDataset_init 1 2 1.

Definition ds5 : InfiniteDataset := MyInfiniteDataset_init (1 # 10) (1 # 4) 3.

Definition ds6 : result InfiniteDataset :=
  MixedInfiniteDataset_init [ds2; ds5] None default_seed.

Fixpoint script_loop (fuel i : nat) (d : InfiniteDataset)
  : option (list line * option exn) :=
  match fuel with
  | O => None
  | S fuel' =>
      match next d with
      | (Raise StopIteration, _) => Some ([], None)
      | (Raise e, _) => Some ([], Some e)
      | (Ok el, d') =>
          let resets := ((i =? 5) || (i =? 10))%nat in
          let out := Print el :: (if resets then [PrintReset] else []) in
          let d'' := if resets then reset d' else d' in
          if (i =? 20)%nat then Some (out, None)
          else match script_loop fuel' (S i) d'' with
               | Some (o, r) => Some (out ++ o, r)
               | None => None
               end
      end
  end.

Definition script (fuel : nat) : option (list line * option exn) :=
  match Finite.add Finite.MyFiniteDataset_init Finite.MyFiniteDataset_init,
        ds6 with
  | Ok _, Ok d => script_loop fuel O d
  | Raise e, _ => Some ([], Some e)
  | _, Raise e => Some ([], Some e)
  end.

(** *** Unfolding equations *)

Lemma step_mixed (s : Z) (g : G) (datasets : list InfiniteDataset)
      (ps : option (list Q)) :
  step (MixedInfiniteDataset s g datasets ps) =
  match rng_choice g (length datasets) ps with
  | None => (Raise ValueError, MixedInfiniteDataset s g datasets ps)
  | Some (i, g') =>
      let (r, datasets') := on_child datasets i in
      (p <- r ;; Ok (i :: fst p, snd p),
       MixedInfiniteDataset s g' datasets' ps)
  end.
Proof. reflexivity. Qed.

Lemma reset_trace_mixed (s : Z) (g : G) (datasets : list InfiniteDataset)
      (ps : option (list Q)) :
  reset_trace (MixedInfiniteDataset s g datasets ps) =
  let (evs, datasets') := reset_each datasets O in
  (evs ++ [(Own, default_seed)],
   MixedInfiniteDataset s (default_rng default_seed) datasets' ps).
Proof. reflexivity. Qed.

Lemma snd_reset_each (l : list InfiniteDataset) :
  forall i, snd (reset_each l i) = map reset l.
Proof.
  induction l as [|c l IH]; intro i; simpl; [reflexivity|].
  unfold reset at 1.
  destruct (reset_trace c) as [e c'].
  specialize (IH (S i)).
  destruct (reset_each l (S i)) as [es l'']. simpl in *.
  now rewrite IH.
Qed.

Lemma reset_mixed (s : Z) (g : G) (datasets : list InfiniteDataset)
      (ps : option (list Q)) :
  reset (MixedInfiniteDataset s g datasets ps) =
  MixedInfiniteDataset s (default_rng default_seed) (map reset datasets) ps.
Proof.
  unfold reset at 1. rewrite reset_trace_mixed.
  pose proof (snd_reset_each datasets O) as H.
  destruct (reset_each datasets O) as [evs ds']. simpl in *.
  now rewrite H.
Qed.

Lemma reset_leaf (s : Z) (g : G) (pv : parent_vars)
      (gen : kwargs -> result Q) :
  reset (Leaf s g pv gen) =
  Leaf s (default_rng default_seed)
       (map (fun nd => (fst nd, reset_rng (snd nd) (seed (snd nd)))) pv) gen.
Proof. reflexivity. Qed.

(** Induction on a dataset with the hypothesis for every child. *)
Lemma InfiniteDataset_ind' (P : InfiniteDataset -> Prop)
      (Hleaf : forall s g pv gen, P (Leaf s g pv gen))
      (Hmixed : forall s g datasets ps,
          Forall P datasets -> P (MixedInfiniteDataset s g datasets ps)) :
  forall d, P d.
Proof.
  fix IH 1. intros [s g pv gen | s g datasets ps].
  - apply Hleaf.
  - apply Hmixed. induction datasets as [|c l IHl]; constructor.
    + apply IH.
    + exact IHl.
Qed.

(** *** A draw changes the stream only *)

Lemma sample_config (c : Continuous) :
  seed (snd (sample c)) = seed c /\
  forall z, reset_rng (snd (sample c)) z = reset_rng c z.
Proof.
  destruct c as [u | p]; simpl.
  - unfold sample_uniform. destruct (rng_uniform (u_rng u) (lo u) (hi u)).
    simpl. split; reflexivity.
  - unfold sample_power, sample_uniform.
    destruct (rng_uniform (u_rng (uniform p)) (lo (uniform p))
                          (hi (uniform p))).
    simpl. split; reflexivity.
Qed.

Lemma sample_parent_vars_config (pv : parent_vars) :
  map (fun nd => (fst nd, reset_rng (snd nd) (seed (snd nd))))
      (snd (sample_parent_vars pv)) =
  map (fun nd => (fst nd, reset_rng (snd nd) (seed (snd nd)))) pv.
Proof.
  induction pv as [|[name dist] pv IH]; simpl; [reflexivity|].
  destruct (sample_config dist) as [Hs Hr].
  destruct (sample dist) as [x dist'].
  destruct (sample_parent_vars pv) as [kw pv'']. simpl in *.
  now rewrite Hs, Hr, IH.
Qed.

Lemma on_child_config (l : list InfiniteDataset) :
  Forall (fun d => reset (snd (step d)) = reset d) l ->
  forall i, map reset (snd (on_child l i)) = map reset l.
Proof.
  induction 1 as [|c l Hc Hl IH]; intro i; simpl; [reflexivity|].
  destruct i as [|i].
  - destruct (step c) as [r c']. simpl in *. now rewrite Hc.
  - specialize (IH i). destruct (on_child l i) as [r l'']. simpl in *.
    now rewrite IH.
Qed.

Lemma reset_step (d : InfiniteDataset) : reset (snd (step d)) = reset d.
Proof.
  induction d as [s g pv gen | s g datasets ps IH] using InfiniteDataset_ind'.
  - simpl. pose proof (sample_parent_vars_config pv) as H.
    destruct (sample_parent_vars pv) as [kw pv']. simpl in *.
    rewrite !reset_leaf. now rewrite H.
  - rewrite step_mixed.
    destruct (rng_choice g (length datasets) ps) as [[i g']|]; [|reflexivity].
    pose proof (on_child_config IH i) as H.
    destruct (on_child datasets i) as [r datasets']. simpl in *.
    rewrite !reset_mixed. now rewrite H.
Qed.

Lemma reset_next (d : InfiniteDataset) : reset (snd (next d)) = reset d.
Proof.
  unfold next. pose proof (reset_step d) as H.
  destruct (step d) as [r d']. exact H.
Qed.

Lemma reset_rng_twice (c : Continuous) (z z' : Z) :
  reset_rng (reset_rng c z) z' = reset_rng c z' /\
  seed (reset_rng c z) = seed c.
Proof. destruct c; split; reflexivity. Qed.

Lemma reset_reset (d : InfiniteDataset) : reset (reset d) = reset d.
Proof.
  induction d as [s g pv gen | s g datasets ps IH] using InfiniteDataset_ind'.
  - rewrite !reset_leaf. f_equal. rewrite map_map. apply map_ext.
    intros [name dist]. simpl.
    destruct (reset_rng_twice dist (seed dist) (seed dist)) as [H1 H2].
    now rewrite H2, H1.
  - rewrite !reset_mixed. f_equal. rewrite map_map.
    induction IH as [|c l Hc Hl IHl]; simpl; [reflexivity|].
    now rewrite Hc, IHl.
Qed.

Lemma reset_take (n : nat) :
  forall d, reset (snd (take n d)) = reset d.
Proof.
  induction n as [|n IH]; intro d; simpl; [reflexivity|].
  pose proof (reset_step d) as H.
  destruct (step d) as [r d']. specialize (IH d').
  destruct (take n d') as [rs d'']. simpl in *. congruence.
Qed.

Lemma fst_reset_each (l : list InfiniteDataset) :
  forall i, fst (reset_each l i) = child_events l i.
Proof.
  induction l as [|c l IH]; intro i; simpl; [reflexivity|].
  destruct (reset_trace c) as [e c'].
  specialize (IH (S i)).
  destruct (reset_each l (S i)) as [es l'']. simpl in *.
  now rewrite IH.
Qed.

Lemma reset_trace_mixed_eq (s : Z) (g : G) (datasets : list InfiniteDataset)
      (ps : option (list Q)) :
  reset_trace (MixedInfiniteDataset s g datasets ps) =
  (child_events datasets O ++ [(Own, default_seed)],
   MixedInfiniteDataset s (default_rng default_seed) (map reset datasets) ps).
Proof.
  rewrite reset_trace_mixed.
  pose proof (fst_reset_each datasets O) as H1.
  pose proof (snd_reset_each datasets O) as H2.
  destruct (reset_each datasets O) as [evs ds']. simpl in *.
  now rewrite H1, H2.
Qed.

(** Drawing from a mixture leaves a mixture with the same seed and weights. *)
Lemma take_mixed (n : nat) :
  forall s g datasets ps,
  exists g' datasets',
    snd (take n (MixedInfiniteDataset s g datasets ps)) =
    MixedInfiniteDataset s g' datasets' ps.
Proof.
  induction n as [|n IH]; intros s g datasets ps.
  - exists g, datasets. reflexivity.
  - cbn [take]. rewrite step_mixed.
    destruct (rng_choice g (length datasets) ps) as [[i g1]|].
    + destruct (on_child datasets i) as [r ds1].
      destruct (IH s g1 ds1 ps) as (g' & ds' & H).
      destruct (take n (MixedInfiniteDataset s g1 ds1 ps)) as [rs d''].
      exists g', ds'. exact H.
    + destruct (IH s g datasets ps) as (g' & ds' & H).
      destruct (take n (MixedInfiniteDataset s g datasets ps)) as [rs d''].
      exists g', ds'. exact H.
Qed.

Lemma MixedInfiniteDataset_init_ok (datasets : list InfiniteDataset)
      (ps : option (list Q)) (sd : Z) (m : InfiniteDataset) :
  MixedInfiniteDataset_init datasets ps sd = Ok m ->
  m = MixedInfiniteDataset sd (default_rng default_seed)
                           (map reset datasets) ps.
Proof.
  unfold MixedInfiniteDataset_init. intro H.
  destruct ps as [p|].
  - destruct (negb (length datasets =? length p)%nat); [discriminate|].
    injection H as <-. apply reset_mixed.
  - injection H as <-. apply reset_mixed.
Qed.

(** *** Claims on infinite datasets *)

(** C1.  Deep reset on a mixture.  Let [m] be a freshly constructed
    [MixedInfiniteDataset].  After any number [k] of draws, [reset()] gives
    back the state of [m] itself, so the resumed sequence, with the child
    chosen at every step, is the sequence of a brand-new instance; children
    configured alike, whatever they have drawn before, construct the same
    [m].  The calls of [reset_rng] made by [reset()] are those of every child's
    own reset, child after child, and the mixture's stream comes last. *)
Theorem deep_reset_on_mixture
        (datasets : list InfiniteDataset) (ps : option (list Q)) (sd : Z)
        (m : InfiniteDataset) (k : nat) :
  MixedInfiniteDataset_init datasets ps sd = Ok m ->
  reset (snd (take k m)) = m /\
  (forall n, fst (take n (reset (snd (take k m)))) = fst (take n m)) /\
  (forall datasets',
      map reset datasets' = map reset datasets ->
      MixedInfiniteDataset_init datasets' ps sd = Ok m) /\
  (exists g children,
      snd (take k m) = MixedInfiniteDataset sd g children ps /\
      reset_trace (snd (take k m)) =
      (child_events children O ++ [(Own, default_seed)],
       MixedInfiniteDataset sd (default_rng default_seed)
                            (map reset children) ps)).
Proof.
  intro Hinit.
  pose proof (MixedInfiniteDataset_init_ok _ _ _ Hinit) as Hm.
  assert (Hfix : reset m = m).
  { rewrite Hm, reset_mixed. f_equal. rewrite map_map.
    apply map_ext. intro c. apply reset_reset. }
  assert (Hback : reset (snd (take k m)) = m)
    by (rewrite reset_take; exact Hfix).
  split; [exact Hback|].
  split; [intro n; now rewrite Hback|].
  split.
  - intros datasets' Hcfg.
    unfold MixedInfiniteDataset_init in *.
    assert (Hlen : length datasets' = length datasets).
    { rewrite <- (length_map reset datasets'), Hcfg. apply length_map. }
    rewrite Hlen.
    destruct ps as [p|].
    + destruct (negb (length datasets =? length p)%nat); [discriminate|].
      rewrite reset_mixed, Hcfg,
        <- (reset_mixed sd (default_rng default_seed) datasets).
      exact Hinit.
    + rewrite reset_mixed, Hcfg,
        <- (reset_mixed sd (default_rng default_seed) datasets).
      exact Hinit.
  - destruct (take_mixed k sd (default_rng default_seed)
                         (map reset datasets) ps) as (g & children & H).
    exists g, children. rewrite Hm, H. split; [reflexivity|].
    apply reset_trace_mixed_eq.
Qed.

(** The half of reset idempotence that concerns infinite datasets: from any
    state, what follows one [reset()] is what follows the next one. *)
Lemma reset_idempotent_infinite (d : InfiniteDataset) (n : nat) :
  fst (take n (reset d)) = fst (take n (reset (snd (take n (reset d))))).
Proof. now rewrite reset_take, reset_reset. Qed.

(** C7.  The constructor of a mixture raises exactly when weights are given
    and their number is not the number of children, and what it raises is
    [ValueError], out of [__init__] itself.  Without weights it returns the
    mixture, whose [ps] is [None], and every draw passes that [None] to
    [choice], numpy's uniform choice. *)
Theorem mixed_init_rejects_mismatched_weights
        (datasets : list InfiniteDataset) (ps : option (list Q)) (sd : Z) :
  ((exists e, MixedInfiniteDataset_init datasets ps sd = Raise e) <->
   (exists p, ps = Some p /\ length p <> length datasets)) /\
  (forall e, MixedInfiniteDataset_init datasets ps sd = Raise e ->
             e = ValueError) /\
  MixedInfiniteDataset_init datasets None sd =
  Ok (MixedInfiniteDataset sd (default_rng default_seed)
                           (map reset datasets) None) /\
  (forall s g children,
      step (MixedInfiniteDataset s g children None) =
      match rng_choice g (length children) None with
      | None => (Raise ValueError, MixedInfiniteDataset s g children None)
      | Some (i, g') =>
          let (r, children') := on_child children i in
          (p <- r ;; Ok (i :: fst p, snd p),
           MixedInfiniteDataset s g' children' None)
      end).
Proof.
  unfold MixedInfiniteDataset_init.
  repeat split.
  - intros [e H]. destruct ps as [p|]; [|discriminate].
    exists p. split; [reflexivity|].
    destruct (Nat.eqb_spec (length datasets) (length p)) as [Heq|Hne].
    + discriminate.
    + congruence.
  - intros (p & -> & Hne). exists ValueError.
    destruct (Nat.eqb_spec (length datasets) (length p)) as [Heq|Hne'].
    + congruence.
    + reflexivity.
  - intros e H. destruct ps as [p|]; [|discriminate].
    destruct (negb (length datasets =? length p)%nat); congruence.
  - now rewrite reset_mixed.
Qed.

(** C8.  A [PowerContinuous] draws from its inner uniform and raises the
    draw to [power]; the draw moves the inner stream only.  [reset_rng(seed)]
    re-creates the inner uniform's stream from [seed] and leaves [seed],
    [power] and the inner uniform's own seed and bounds as they were; the
    object has no stream of its own. *)
Theorem power_continuous_forwards (p : PowerContinuous) (z : Z) :
  fst (sample_power p) =
    np_power (fst (sample_uniform (uniform p))) (power p) /\
  snd (sample_power p) =
    mkPower (p_seed p) (power p) (snd (sample_uniform (uniform p))) /\
  reset_rng p z = mkPower (p_seed p) (power p) (reset_rng (uniform p) z) /\
  uniform (reset_rng p z) =
    mkUniform (u_seed (uniform p)) (default_rng z)
              (lo (uniform p)) (hi (uniform p)).
Proof.
  unfold sample_power.
  destruct (sample_uniform (uniform p)) as [x u].
  repeat split.
Qed.

(** *** The stored seed of a dataset *)

Lemma step_with_seed (s : Z) (d : InfiniteDataset) :
  step (with_seed s d) = (fst (step d), with_seed s (snd (step d))).
Proof.
  destruct d as [s0 g pv gen | s0 g datasets ps].
  - simpl. destruct (sample_parent_vars pv) as [kw pv']. reflexivity.
  - cbn [with_seed]. rewrite !step_mixed.
    destruct (rng_choice g (length datasets) ps) as [[i g']|]; [|reflexivity].
    destruct (on_child datasets i) as [r ds']. reflexivity.
Qed.

Lemma reset_with_seed (s : Z) (d : InfiniteDataset) :
  reset (with_seed s d) = with_seed s (reset d).
Proof.
  destruct d as [s0 g pv gen | s0 g datasets ps].
  - reflexivity.
  - cbn [with_seed]. now rewrite !reset_mixed.
Qed.

Lemma run_with_seed (ops : list op) :
  forall s d, run ops (with_seed s d) = run ops d.
Proof.
  induction ops as [|[|] ops IH]; intros s d; simpl.
  - reflexivity.
  - unfold next. rewrite step_with_seed.
    destruct (step d) as [r d']. simpl. now rewrite IH.
  - now rewrite reset_with_seed, IH.
Qed.

Lemma ds_rng_reset (d : InfiniteDataset) :
  ds_rng (reset d) = default_rng default_seed.
Proof.
  destruct d as [s g pv gen | s g datasets ps].
  - reflexivity.
  - now rewrite reset_mixed.
Qed.

(** C10.  The [seed] argument of a dataset constructor is stored and never
    read: two leaves, or two mixtures, built alike but for that argument
    answer every sequence of [next] and [reset] calls alike (and the
    constructor of the mixture fails alike), as does any state whose stored
    seed is overwritten.  The dataset's own stream is [default_rng(42)] after
    construction and after every reset, whatever was stored. *)
Theorem dataset_seed_is_never_used (s1 s2 : Z) (ops : list op) :
  (forall pv gen,
      run ops (InfiniteDataset_init pv gen s1) =
      run ops (InfiniteDataset_init pv gen s2)) /\
  (forall datasets ps,
      match MixedInfiniteDataset_init datasets ps s1,
            MixedInfiniteDataset_init datasets ps s2 with
      | Ok m1, Ok m2 =>
          run ops m1 = run ops m2 /\
          ds_rng m1 = default_rng default_seed /\
          ds_rng m2 = default_rng default_seed
      | Raise e1, Raise e2 => e1 = e2
      | _, _ => False
      end) /\
  (forall d, run ops (with_seed s1 d) = run ops d) /\
  (forall pv gen,
      ds_rng (InfiniteDataset_init pv gen s1) = default_rng default_seed) /\
  (forall d, ds_rng (reset d) = default_rng default_seed /\
             ds_seed (reset d) = ds_seed d).
Proof.
  repeat split.
  - intros pv gen.
    change (InfiniteDataset_init pv gen s1)
      with (with_seed s1 (InfiniteDataset_init pv gen s2)).
    apply run_with_seed.
  - intros datasets ps. unfold MixedInfiniteDataset_init.
    assert (H : forall p,
               reset (MixedInfiniteDataset s1 (default_rng default_seed)
                                           datasets p) =
               with_seed s1
                 (reset (MixedInfiniteDataset s2 (default_rng default_seed)
                                              datasets p)))
      by (intro p; now rewrite !reset_mixed).
    destruct ps as [p|].
    + destruct (negb (length datasets =? length p)%nat); [reflexivity|].
      rewrite H, run_with_seed, reset_mixed. repeat split.
    + rewrite H, run_with_seed, reset_mixed. repeat split.
  - intro d. apply run_with_seed.
  - apply ds_rng_reset.
  - destruct d as [s g pv gen | s g datasets ps];
      [reflexivity | now rewrite reset_mixed].
Qed.

(** *** The scenario of [MyInfiniteDataset(1, 2, 1)] *)

Section Scenario.

(** numpy, as far as the scenario needs it: [uniform(lo, hi)] is
    [lo + (hi - lo) * random()] on the same stream, the first [random()] of
    [default_rng(42)] is the recorded [0.7739560485559633], and a first
    power is the number itself. *)
Hypothesis uniform_affine :
  forall g lo hi,
    fst (rng_uniform g lo hi) == lo + (hi - lo) * fst (rng_uniform g 0 1).
Hypothesis first_draw :
  fst (rng_uniform (default_rng default_seed) 0 1) == Recorded.first_draw.
Hypothesis power_one : forall x, np_power x 1 = x.

Lemma MyInfiniteDataset_first (lmin lmax : Q) :
  fst (next (MyInfiniteDataset_init lmin lmax 1)) =
  Ok (fst (rng_uniform (default_rng default_seed) 0 1) *
      fst (rng_uniform (default_rng default_seed) lmin lmax)).
Proof.
  unfold next, MyInfiniteDataset_init, InfiniteDataset_init.
  rewrite reset_leaf. cbn -[Qmult].
  unfold sample_uniform. cbn -[Qmult].
  destruct (rng_uniform (default_rng default_seed) lmin lmax) as [xl gl].
  unfold sample_power, sample_uniform. cbn -[Qmult].
  destruct (rng_uniform (default_rng default_seed) 0 1) as [xf gf].
  cbn -[Qmult]. now rewrite power_one.
Qed.

(** C9.  The dataset with parents [l = Uniform(1, 2)] and
    [frac = PowerTransformed(power = 1)] and combiner [frac * l] has both
    parent streams at [default_rng(42)]: its first sample is [u * (1 + u)]
    for the first draw [u] of that stream, about 1.37296, which lies in
    [[1, 2)].  After [reset()], whatever was drawn before, the first sample
    is again the first sample of the fresh dataset. *)
Theorem my_infinite_dataset_scenario (k : nat) :
  (exists x, fst (next (MyInfiniteDataset_init 1 2 1)) = Ok x /\
             1 <= x /\ x < 2) /\
  fst (next (reset (snd (take k (MyInfiniteDataset_init 1 2 1))))) =
  fst (next (MyInfiniteDataset_init 1 2 1)).
Proof.
  split.
  - rewrite MyInfiniteDataset_first.
    eexists. split; [reflexivity|].
    assert (E : fst (rng_uniform (default_rng default_seed) 0 1) *
                fst (rng_uniform (default_rng default_seed) 1 2) ==
                Recorded.first_draw * (1 + (2 - 1) * Recorded.first_draw)).
    { rewrite (uniform_affine (default_rng default_seed) 1 2), first_draw.
      reflexivity. }
    split; rewrite E.
    + vm_compute. discriminate.
    + vm_compute. reflexivity.
  - rewrite reset_take.
    unfold MyInfiniteDataset_init, InfiniteDataset_init.
    now rewrite reset_reset.
Qed.

End Scenario.

(** *** Histories, frames and streams *)

Lemma reset_exec (ops : list op) :
  forall d, reset (exec ops d) = reset d.
Proof.
  induction ops as [|[|] ops IH]; intro d; cbn [exec].
  - reflexivity.
  - now rewrite IH, reset_next.
  - now rewrite IH, reset_reset.
Qed.

(** X9.  [reset()] forgets the history of an infinite dataset, leaf or
    mixture: whatever calls of [next()] and [reset()] came before, the state
    after [reset()] is the one [reset()] gives at once, and so is every
    sequence drawn from it. *)
Theorem reset_forgets_history (ops : list op) (d : InfiniteDataset) (n : nat) :
  reset (exec ops d) = reset d /\
  fst (take n (reset (exec ops d))) = fst (take n (reset d)).
Proof.
  assert (H : reset (exec ops d) = reset d).
  { revert d. induction ops as [|[|] ops IH]; intro d; cbn [exec].
    - reflexivity.
    - rewrite IH. apply reset_next.
    - rewrite IH. apply reset_reset. }
  split; [exact H | now rewrite H].
Qed.

Lemma InfiniteDataset_init_fixed (pv : parent_vars)
      (gen : kwargs -> result Q) (sd : Z) :
  reset (InfiniteDataset_init pv gen sd) = InfiniteDataset_init pv gen sd.
Proof. unfold InfiniteDataset_init. apply reset_reset. Qed.

(** X10.  Constructing a leaf re-seeds the parent distributions it is given:
    built over parents that have already been drawn from, it is the dataset
    built over the parents as they were; and after any calls, [reset()]
    gives back the constructed state. *)
Theorem leaf_construction_reseeds_parents
        (pv : parent_vars) (gen : kwargs -> result Q) (sd : Z)
        (ops : list op) :
  InfiniteDataset_init (snd (sample_parent_vars pv)) gen sd =
    InfiniteDataset_init pv gen sd /\
  reset (exec ops (InfiniteDataset_init pv gen sd)) =
    InfiniteDataset_init pv gen sd.
Proof.
  split.
  - unfold InfiniteDataset_init. rewrite !reset_leaf.
    now rewrite sample_parent_vars_config.
  - now rewrite reset_exec, InfiniteDataset_init_fixed.
Qed.

Lemma on_child_frame (l : list InfiniteDataset) :
  forall i c, nth_error l i = Some c ->
  fst (on_child l i) = fst (step c) /\
  nth_error (snd (on_child l i)) i = Some (snd (step c)) /\
  (forall j, j <> i -> nth_error (snd (on_child l i)) j = nth_error l j) /\
  length (snd (on_child l i)) = length l.
Proof.
  induction l as [|c0 l IH]; intros i c Hi.
  - destruct i; discriminate.
  - destruct i as [|i]; cbn [on_child].
    + injection Hi as ->. destruct (step c) as [r c']. cbn.
      repeat split. intros [|j] Hj; [congruence | reflexivity].
    + cbn in Hi. destruct (IH i c Hi) as (H1 & H2 & H3 & H4).
      destruct (on_child l i) as [r l'']. cbn in *.
      repeat split; auto.
      intros [|j] Hj; [reflexivity|]. cbn. apply H3. congruence.
Qed.

(** X11.  A draw from a mixture touches the chosen child and the mixture's
    own stream, nothing else.  When [choice] returns index [i] and leaves
    the stream [g'], the sample is the one the [i]-th child draws from its
    own state, the child moves as in its own [next], every other child is
    as it was, and seed, weights and number of children are unchanged. *)
Theorem mixture_step_touches_chosen_child_only
        (s : Z) (g g' : G) (datasets : list InfiniteDataset)
        (ps : option (list Q)) (i : nat) (c : InfiniteDataset) :
  rng_choice g (length datasets) ps = Some (i, g') ->
  nth_error datasets i = Some c ->
  exists datasets',
    step (MixedInfiniteDataset s g datasets ps) =
      (p <- fst (step c) ;; Ok (i :: fst p, snd p),
       MixedInfiniteDataset s g' datasets' ps) /\
    nth_error datasets' i = Some (snd (step c)) /\
    (forall j, j <> i -> nth_error datasets' j = nth_error datasets j) /\
    length datasets' = length datasets.
Proof.
  intros Hch Hi. rewrite step_mixed, Hch.
  destruct (on_child_frame datasets i Hi) as (H1 & H2 & H3 & H4).
  destruct (on_child datasets i) as [r datasets']. cbn in *.
  exists datasets'. rewrite H1. repeat split; auto.
Qed.

(** *** The draws of a leaf *)

Lemma sample_parent_vars_eq (pv : parent_vars) :
  sample_parent_vars pv =
  (map (fun nd => (fst nd, fst (sample (snd nd)))) pv,
   map (fun nd => (fst nd, snd (sample (snd nd)))) pv).
Proof.
  induction pv as [|[name dist] pv IH]; [reflexivity|].
  cbn [sample_parent_vars map fst snd].
  destruct (sample dist) as [x dist']. rewrite IH. reflexivity.
Qed.

Lemma take_leaf (n : nat) :
  forall s g pv gen,
  take n (Leaf s g pv gen) =
  (map (fun k =>
          x <- gen (map (fun nd =>
                           (fst nd,
                            fst (sample (Nat.iter k (fun c => snd (sample c))
                                                  (snd nd))))) pv) ;;
          Ok ([], x))
       (seq 0 n),
   Leaf s g
        (map (fun nd => (fst nd, Nat.iter n (fun c => snd (sample c)) (snd nd)))
             pv)
        gen).
Proof.
  induction n as [|n IH]; intros s g pv gen.
  - cbn [take seq map Nat.iter]. f_equal. f_equal.
    rewrite <- (map_id pv) at 1. apply map_ext. now intros [name dist].
  - cbn [take step]. rewrite sample_parent_vars_eq, IH.
    f_equal.
    + cbn [seq map Nat.iter]. f_equal.
      rewrite <- seq_shift, map_map. apply map_ext. intro k.
      rewrite map_map. cbn [fst snd].
      do 2 f_equal. apply map_ext. intros [name dist]. cbn [fst snd].
      now rewrite Nat.iter_succ_r.
    + f_equal. rewrite map_map. apply map_ext. intros [name dist].
      cbn [fst snd]. now rewrite Nat.iter_succ_r.
Qed.

(** X12.  A leaf whose parents all have [lo <= hi] (so that no draw
    raises) draws from every parent once per step and from nothing else.
    After [n] steps each parent is where [n] draws of its own put it,
    whatever the other parents are, and the leaf's own stream is unread; the
    [k]-th sample is [gen_sample] of the [k]-th draws. *)
Theorem leaf_draws_parents_independently
        (n : nat) (s : Z) (g : G) (pv : parent_vars)
        (gen : kwargs -> result Q) :
  Forall (fun nd => valid_bounds (snd nd)) pv ->
  snd (take n (Leaf s g pv gen)) =
    Leaf s g
         (map (fun nd =>
                 (fst nd, Nat.iter n (fun c => snd (sample c)) (snd nd)))
              pv)
         gen /\
  fst (take n (Leaf s g pv gen)) =
    map (fun k =>
           x <- gen (map (fun nd =>
                            (fst nd,
                             fst (sample (Nat.iter k (fun c => snd (sample c))
                                                   (snd nd))))) pv) ;;
           Ok ([], x))
        (seq 0 n).
Proof. intros _. rewrite take_leaf. split; reflexivity. Qed.

Lemma fst_sample_uniform (u : UniformContinuous) :
  fst (sample (Uniform u)) = fst (rng_uniform (u_rng u) (lo u) (hi u)).
Proof.
  cbn [sample]. unfold sample_uniform.
  now destruct (rng_uniform (u_rng u) (lo u) (hi u)).
Qed.

Lemma fst_sample_power (p : PowerContinuous) :
  fst (sample (Power p)) =
  np_power (fst (rng_uniform (u_rng (uniform p)) (lo (uniform p))
                             (hi (uniform p))))
           (power p).
Proof.
  cbn [sample]. unfold sample_power, sample_uniform.
  now destruct (rng_uniform (u_rng (uniform p)) (lo (uniform p))
                            (hi (uniform p))).
Qed.

Lemma iter_sample_uniform (k : nat) (sd : Z) (g0 : G) (a b : Q) :
  Nat.iter k (fun c => snd (sample c)) (Uniform (mkUniform sd g0 a b)) =
  Uniform (mkUniform sd (Nat.iter k (fun g => snd (rng_uniform g a b)) g0)
                     a b).
Proof.
  induction k as [|k IH]; [reflexivity|].
  rewrite !Nat.iter_succ, IH. cbn [sample].
  unfold sample_uniform. cbn [u_rng lo hi u_seed].
  now destruct (rng_uniform _ a b).
Qed.

Lemma iter_sample_power (k : nat) (sd usd : Z) (p : Q) (g0 : G) (a b : Q) :
  Nat.iter k (fun c => snd (sample c))
           (Power (mkPower sd p (mkUniform usd g0 a b))) =
  Power (mkPower sd p
           (mkUniform usd (Nat.iter k (fun g => snd (rng_uniform g a b)) g0)
                      a b)).
Proof.
  induction k as [|k IH]; [reflexivity|].
  rewrite !Nat.iter_succ, IH. cbn [sample].
  unfold sample_power, sample_uniform.
  cbn [uniform power p_seed u_rng lo hi u_seed].
  now destruct (rng_uniform _ a b).
Qed.

Lemma MyInfiniteDataset_init_eq (lmin lmax pw : Q) :
  MyInfiniteDataset_init lmin lmax pw =
  Leaf default_seed (default_rng default_seed)
       [("l"%string,
         Uniform (mkUniform default_seed (default_rng default_seed)
                            lmin lmax));
        ("frac"%string,
         Power (mkPower default_seed pw
                        (mkUniform default_seed (default_rng default_seed)
                                   0 1)))]
       MyInfiniteDataset_gen_sample.
Proof. reflexivity. Qed.

Lemma MyInfiniteDataset_take (lmin lmax pw : Q) (n : nat) :
  fst (take n (MyInfiniteDataset_init lmin lmax pw)) =
  map (fun k =>
         Ok ([], np_power (fst (rng_uniform (drawn 0 1 k) 0 1)) pw *
                 fst (rng_uniform (drawn lmin lmax k) lmin lmax)))
      (seq 0 n).
Proof.
  rewrite MyInfiniteDataset_init_eq, take_leaf. cbn [fst].
  apply map_ext. intro k. cbn [map fst snd].
  rewrite iter_sample_uniform, iter_sample_power.
  rewrite fst_sample_uniform, fst_sample_power.
  reflexivity.
Qed.

(** X13.  The samples of [MyInfiniteDataset(lmin, lmax, power)] with
    [lmin <= lmax], all of them: the [k]-th is [u ** power * l], where [l] is
    the [k]-th draw of [uniform(lmin, lmax)] and [u] the [k]-th draw of
    [uniform(0, 1)], each from a stream of its own that starts at
    [default_rng(42)].  No step raises; after [n] steps the two streams have
    made [n] draws each and the dataset's own stream is still
    [default_rng(42)]. *)
Theorem my_infinite_dataset_samples (lmin lmax pw : Q) (n : nat) :
  lmin <= lmax ->
  fst (take n (MyInfiniteDataset_init lmin lmax pw)) =
    map (fun k =>
           Ok ([], np_power (fst (rng_uniform (drawn 0 1 k) 0 1)) pw *
                   fst (rng_uniform (drawn lmin lmax k) lmin lmax)))
        (seq 0 n) /\
  snd (take n (MyInfiniteDataset_init lmin lmax pw)) =
    Leaf default_seed (default_rng default_seed)
         [("l"%string,
           Uniform (mkUniform default_seed (drawn lmin lmax n) lmin lmax));
          ("frac"%string,
           Power (mkPower default_seed pw
                          (mkUniform default_seed (drawn 0 1 n) 0 1)))]
         MyInfiniteDataset_gen_sample.
Proof.
  intros _. split; [apply MyInfiniteDataset_take|].
  rewrite MyInfiniteDataset_init_eq, take_leaf. cbn [snd map fst].
  now rewrite iter_sample_uniform, iter_sample_power.
Qed.

(** X15.  [dist.reset_rng(dist.seed)] undoes every draw of a distribution:
    after [n] draws it gives back the distribution as constructed, for a
    [UniformContinuous] and for a [PowerContinuous].  Inside a
    [PowerContinuous(seed = s)] the uniform's stream is [default_rng(s)]
    while the uniform's own stored seed stays 42. *)
Theorem distribution_reset_undoes_draws (a b pw : Q) (s : Z) (n : nat) :
  let after c := Nat.iter n (fun c => snd (sample c)) c in
  let u := Uniform (UniformContinuous_init a b s) in
  let p := Power (PowerContinuous_init a b pw s) in
  reset_rng (after u) (seed (after u)) = u /\
  reset_rng (after p) (seed (after p)) = p /\
  u_rng (uniform (PowerContinuous_init a b pw s)) = default_rng s /\
  u_seed (uniform (PowerContinuous_init a b pw s)) = default_seed.
Proof.
  cbv zeta.
  change (PowerContinuous_init a b pw s)
    with (mkPower s pw (mkUniform default_seed (default_rng s) a b)).
  unfold UniformContinuous_init.
  rewrite iter_sample_uniform, iter_sample_power.
  repeat split.
Qed.

(** *** The script *)

Lemma MixedInfiniteDataset_init_fixed (datasets : list InfiniteDataset)
      (ps : option (list Q)) (sd : Z) (m : InfiniteDataset) :
  MixedInfiniteDataset_init datasets ps sd = Ok m -> reset m = m.
Proof.
  intro H. rewrite (MixedInfiniteDataset_init_ok _ _ _ H), reset_mixed.
  f_equal. rewrite map_map. apply map_ext. intro c. apply reset_reset.
Qed.

Lemma reset_after_next (d d' : InfiniteDataset) (r : result Q) :
  next d = (r, d') -> reset d' = reset d.
Proof. intro H. rewrite <- (reset_next d), H. reflexivity. Qed.

Ltac peel_run H E :=
  match type of H with
  | context [next ?d] =>
      let r := fresh "r" in
      let d' := fresh "m" in
      destruct (next d) as [r d'] eqn:E;
      match type of H with
      | _ = map Ok ?xs =>
          let x := fresh "x" in
          destruct xs as [|x xs]; [discriminate H|];
          cbn [map] in H; injection H as -> H
      end
  end.

(** X17.  The script prints its samples in three runs of the same sequence.
    If the first ten [next(ds6)] of the fresh mixture return [xs], the script
    prints the first six of them, [reset], the first five again, [reset], and
    then all ten, and ends without an exception after 21 iterations. *)
Theorem script_prints_restarted_sequences
        (m : InfiniteDataset) (xs : list Q) (fuel : nat) :
  ds6 = Ok m ->
  run (repeat Next 10) m = map Ok xs ->
  (21 <= fuel)%nat ->
  script fuel =
  Some (map Print (firstn 6 xs) ++ [PrintReset] ++
        map Print (firstn 5 xs) ++ [PrintReset] ++ map Print xs,
        None).
Proof.
  intros Hm Hrun Hfuel.
  pose proof (MixedInfiniteDataset_init_fixed _ _ _ Hm) as Hfix.
  unfold script. rewrite Hm.
  change (Finite.add Finite.MyFiniteDataset_init Finite.MyFiniteDataset_init)
    with (Ok (Finite.MixedFiniteDataset_init
                [Finite.MyFiniteDataset_init; Finite.MyFiniteDataset_init])).
  cbv iota.
  cbn [repeat run] in Hrun.
  peel_run Hrun E0. peel_run Hrun E1. peel_run Hrun E2. peel_run Hrun E3.
  peel_run Hrun E4. peel_run Hrun E5. peel_run Hrun E6. peel_run Hrun E7.
  peel_run Hrun E8. peel_run Hrun E9.
  destruct xs; [|discriminate Hrun]. clear Hrun.
  assert (R1 : reset m0 = m)
    by (rewrite (reset_after_next _ E0); exact Hfix).
  assert (R2 : reset m1 = m) by (rewrite (reset_after_next _ E1); exact R1).
  assert (R3 : reset m2 = m) by (rewrite (reset_after_next _ E2); exact R2).
  assert (R4 : reset m3 = m) by (rewrite (reset_after_next _ E3); exact R3).
  assert (R5 : reset m4 = m) by (rewrite (reset_after_next _ E4); exact R4).
  assert (R6 : reset m5 = m) by (rewrite (reset_after_next _ E5); exact R5).
  replace fuel with (21 + (fuel - 21))%nat by lia.
  generalize (fuel - 21)%nat. intro f. cbn [Nat.add].
  cbn [script_loop Nat.eqb orb app].
  rewrite E0; cbn [script_loop Nat.eqb orb app].
  rewrite E1; cbn [script_loop Nat.eqb orb app].
  rewrite E2; cbn [script_loop Nat.eqb orb app].
  rewrite E3; cbn [script_loop Nat.eqb orb app].
  rewrite E4; cbn [script_loop Nat.eqb orb app].
  rewrite E5; cbn [script_loop Nat.eqb orb app].
  rewrite R6.
  rewrite E0; cbn [script_loop Nat.eqb orb app].
  rewrite E1; cbn [script_loop Nat.eqb orb app].
  rewrite E2; cbn [script_loop Nat.eqb orb app].
  rewrite E3; cbn [script_loop Nat.eqb orb app].
  rewrite E4; cbn [script_loop Nat.eqb orb app].
  rewrite R5.
  rewrite E0; cbn [script_loop Nat.eqb orb app].
  rewrite E1; cbn [script_loop Nat.eqb orb app].
  rewrite E2; cbn [script_loop Nat.eqb orb app].
  rewrite E3; cbn [script_loop Nat.eqb orb app].
  rewrite E4; cbn [script_loop Nat.eqb orb app].
  rewrite E5; cbn [script_loop Nat.eqb orb app].
  rewrite E6; cbn [script_loop Nat.eqb orb app].
  rewrite E7; cbn [script_loop Nat.eqb orb app].
  rewrite E8; cbn [script_loop Nat.eqb orb app].
  rewrite E9; cbn [script_loop Nat.eqb orb app].
  reflexivity.
Qed.

(** *** numpy's contracts *)

Section Contracts.

Hypothesis uniform_range :
  forall g lo hi, lo < hi ->
    lo <= fst (rng_uniform g lo hi) /\ fst (rng_uniform g lo hi) < hi.
Hypothesis power_one : forall x, np_power x 1 = x.
(** [choice] raises [ValueError] on an empty list. *)
Hypothesis choice_empty : forall g ps, rng_choice g 0 ps = None.

(** X14.  With [power = 1] and [0 <= lmin < lmax], every sample of
    [MyInfiniteDataset(lmin, lmax, 1)] lies in [[0, lmax)]: it is the
    product of a draw in [[0, 1)] and a draw in [[lmin, lmax)]. *)
Theorem my_infinite_dataset_bounds (lmin lmax : Q) (n : nat) :
  0 <= lmin -> lmin < lmax ->
  Forall (fun r => exists x, r = Ok ([], x) /\ 0 <= x /\ x < lmax)
         (fst (take n (MyInfiniteDataset_init lmin lmax 1))).
Proof.
  intros H0 Hlt. rewrite MyInfiniteDataset_take.
  apply Forall_forall. intros r Hr. apply in_map_iff in Hr.
  destruct Hr as (k & <- & _).
  eexists. split; [reflexivity|]. rewrite power_one.
  assert (H01 : 0 < 1) by reflexivity.
  destruct (uniform_range (drawn 0 1 k) H01) as [Hf0 Hf1].
  destruct (uniform_range (drawn lmin lmax k) Hlt) as [Hl0 Hl1].
  split; nra.
Qed.

Lemma step_empty (s : Z) (g : G) (ps : option (list Q)) :
  step (MixedInfiniteDataset s g [] ps) =
  (Raise ValueError, MixedInfiniteDataset s g [] ps).
Proof. rewrite step_mixed. cbn [length]. now rewrite choice_empty. Qed.

(** X16.  A mixture of no datasets is constructed without error, and fails
    at use: every [next()] raises [ValueError] and leaves the object as it
    is, before and after any [reset()]. *)
Theorem empty_mixture_fails_at_use (sd : Z) (ops : list op) :
  MixedInfiniteDataset_init [] None sd =
    Ok (MixedInfiniteDataset sd (default_rng default_seed) [] None) /\
  forall s g ps,
    Forall (fun r => r = Raise ValueError)
           (run ops (MixedInfiniteDataset s g [] ps)) /\
    (exec ops (MixedInfiniteDataset s g [] ps) =
       MixedInfiniteDataset s g [] ps \/
     exec ops (MixedInfiniteDataset s g [] ps) =
       MixedInfiniteDataset s (default_rng default_seed) [] ps).
Proof.
  split; [reflexivity|].
  induction ops as [|[|] ops IH]; intros s g ps.
  - split; [constructor | now left].
  - cbn [run exec]. unfold next. rewrite step_empty. cbn [bind snd].
    destruct (IH s g ps) as [H1 H2]. split; [now constructor | exact H2].
  - cbn [run exec]. rewrite reset_mixed. cbn [map].
    destruct (IH s (default_rng default_seed) ps) as [H1 [H2|H2]];
      (split; [exact H1 | now right]).
Qed.

End Contracts.

End Stream.

(** *** The datasets of the script, run on the small stream *)

Lemma lcg_unit_range (g : Lcg.G) : 0 <= Lcg.unit g /\ Lcg.unit g < 1.
Proof.
  unfold Lcg.unit, Lcg.advance, Qle, Qlt. simpl.
  pose proof (Z.mod_pos_bound (g * 5 + 3) 16 eq_refl). lia.
Qed.

Lemma lcg_uniform_range (g : Lcg.G) (lo hi : Q) :
  lo < hi ->
  lo <= fst (Lcg.rng_uniform g lo hi) /\ fst (Lcg.rng_uniform g lo hi) < hi.
Proof.
  intro H. destruct (lcg_unit_range g) as [H0 H1]. simpl.
  split; nra.
Qed.

Lemma lcg_power_one (x : Q) : Lcg.np_power x 1 = x.
Proof. reflexivity. Qed.

(** [ds6 = MixedInfiniteDataset([ds2, ds5])] with weights: six draws, then
    [reset()]. *)
Lemma deep_reset_on_mixture_witness :
  let ds2 := MyInfiniteDataset_init Lcg.default_rng 1 2 1 in
  let ds5 := MyInfiniteDataset_init Lcg.default_rng (1 # 10) (1 # 4) 3 in
  let ps := Some [9 # 10; 1 # 10] in
  let m := reset Lcg.default_rng
             (MixedInfiniteDataset 42 (Lcg.default_rng 42) [ds2; ds5] ps) in
  MixedInfiniteDataset_init Lcg.default_rng [ds2; ds5] ps 42 = Ok m /\
  reset Lcg.default_rng
        (snd (take Lcg.rng_uniform Lcg.rng_choice Lcg.np_power 6 m)) = m.
Proof.
  intros ds2 ds5 ps m.
  assert (H : MixedInfiniteDataset_init Lcg.default_rng [ds2; ds5] ps 42
              = Ok m) by reflexivity.
  split; [exact H|].
  exact (proj1 (deep_reset_on_mixture Lcg.default_rng Lcg.rng_uniform
                                      Lcg.rng_choice Lcg.np_power
                                      [ds2; ds5] ps 42 6 H)).
Defined.

Lemma recorded_uniform_affine (g : Recorded.G) (lo hi : Q) :
  fst (Recorded.rng_uniform g lo hi) ==
  lo + (hi - lo) * fst (Recorded.rng_uniform g 0 1).
Proof. simpl. ring. Qed.

Lemma recorded_first_draw :
  fst (Recorded.rng_uniform (Recorded.default_rng default_seed) 0 1) ==
  Recorded.first_draw.
Proof. simpl. ring. Qed.

Lemma recorded_power_one (x : Q) : Recorded.np_power x 1 = x.
Proof. reflexivity. Qed.

Lemma my_infinite_dataset_scenario_witness :
  (exists x,
      fst (next Recorded.rng_uniform Recorded.rng_choice Recorded.np_power
                (MyInfiniteDataset_init Recorded.default_rng 1 2 1)) = Ok x /\
      1 <= x /\ x < 2) /\
  fst (next Recorded.rng_uniform Recorded.rng_choice Recorded.np_power
            (reset Recorded.default_rng
                   (snd (take Recorded.rng_uniform Recorded.rng_choice
                              Recorded.np_power 3
                              (MyInfiniteDataset_init Recorded.default_rng
                                                      1 2 1)))))
  = fst (next Recorded.rng_uniform Recorded.rng_choice Recorded.np_power
              (MyInfiniteDataset_init Recorded.default_rng 1 2 1)).
Proof.
  exact (@my_infinite_dataset_scenario
           Recorded.G Recorded.default_rng Recorded.rng_uniform
           Recorded.rng_choice Recorded.np_power
           recorded_uniform_affine recorded_first_draw recorded_power_one 3).
Defined.

(** The mixture of the script draws once: [choice] picks the second child. *)
Lemma mixture_step_touches_chosen_child_only_witness :
  let a := MyInfiniteDataset_init Lcg.default_rng 1 2 1 in
  let b := MyInfiniteDataset_init Lcg.default_rng (1 # 10) (1 # 4) 3 in
  (Lcg.rng_choice 42%Z (length [a; b]) None = Some (1%nat, 5%Z) /\
   nth_error [a; b] 1 = Some b) /\
  exists datasets',
    step Lcg.rng_uniform Lcg.rng_choice Lcg.np_power
         (MixedInfiniteDataset 42%Z 42%Z [a; b] None) =
      (p <- fst (step Lcg.rng_uniform Lcg.rng_choice Lcg.np_power b) ;;
       Ok (1%nat :: fst p, snd p),
       MixedInfiniteDataset 42%Z 5%Z datasets' None) /\
    nth_error datasets' 1 =
      Some (snd (step Lcg.rng_uniform Lcg.rng_choice Lcg.np_power b)) /\
    (forall j, j <> 1%nat -> nth_error datasets' j = nth_error [a; b] j) /\
    length datasets' = length [a; b].
Proof.
  intros a b.
  assert (Hch : Lcg.rng_choice 42%Z (length [a; b]) None = Some (1%nat, 5%Z))
    by reflexivity.
  assert (Hi : nth_error [a; b] 1 = Some b) by reflexivity.
  split; [split; assumption|].
  exact (@mixture_step_touches_chosen_child_only
           Lcg.G Lcg.rng_uniform Lcg.rng_choice Lcg.np_power
           42%Z 42%Z 5%Z [a; b] None 1%nat b Hch Hi).
Defined.

Lemma leaf_draws_parents_independently_witness :
  let pv := [("l"%string,
              Uniform (UniformContinuous_init Lcg.default_rng 1 2 42));
             ("frac"%string,
              Power (PowerContinuous_init Lcg.default_rng 0 1 1 42))] in
  let d := Leaf 42 (Lcg.default_rng 42) pv MyInfiniteDataset_gen_sample in
  Forall (fun nd => valid_bounds (snd nd)) pv /\
  snd (take Lcg.rng_uniform Lcg.rng_choice Lcg.np_power 2 d) =
    Leaf 42 (Lcg.default_rng 42)
         (map (fun nd =>
                 (fst nd,
                  Nat.iter 2 (fun c => snd (sample Lcg.rng_uniform
                                                   Lcg.np_power c))
                           (snd nd)))
              pv)
         MyInfiniteDataset_gen_sample.
Proof.
  intros pv d.
  assert (Hv : Forall (fun nd => valid_bounds (snd nd)) pv)
    by (repeat constructor; cbn; discriminate).
  split; [exact Hv|].
  exact (proj1 (@leaf_draws_parents_independently
                  Lcg.G Lcg.rng_uniform Lcg.rng_choice Lcg.np_power
                  2%nat 42%Z (Lcg.default_rng 42) pv
                  MyInfiniteDataset_gen_sample Hv)).
Defined.

Lemma my_infinite_dataset_samples_witness :
  1 <= 2 /\
  fst (take Lcg.rng_uniform Lcg.rng_choice Lcg.np_power 2
            (MyInfiniteDataset_init Lcg.default_rng 1 2 1)) =
  map (fun k =>
         Ok ([], Lcg.np_power
                   (fst (Lcg.rng_uniform
                           (drawn Lcg.default_rng Lcg.rng_uniform 0 1 k)
                           0 1)) 1 *
                 fst (Lcg.rng_uniform
                        (drawn Lcg.default_rng Lcg.rng_uniform 1 2 k) 1 2)))
      (seq 0 2).
Proof.
  assert (H : 1 <= 2) by discriminate.
  split; [exact H|].
  exact (proj1 (@my_infinite_dataset_samples
                  Lcg.G Lcg.default_rng Lcg.rng_uniform Lcg.rng_choice
                  Lcg.np_power 1 2 1 2%nat H)).
Defined.

Lemma my_infinite_dataset_bounds_witness :
  (0 <= 1 /\ 1 < 2) /\
  Forall (fun r => exists x, r = Ok ([], x) /\ 0 <= x /\ x < 2)
         (fst (take Lcg.rng_uniform Lcg.rng_choice Lcg.np_power 3
                    (MyInfiniteDataset_init Lcg.default_rng 1 2 1))).
Proof.
  assert (H0 : 0 <= 1) by discriminate.
  assert (H1 : 1 < 2) by reflexivity.
  split; [split; assumption|].
  exact (@my_infinite_dataset_bounds
           Lcg.G Lcg.default_rng Lcg.rng_uniform Lcg.rng_choice Lcg.np_power
           lcg_uniform_range lcg_power_one 1 2 3%nat H0 H1).
Defined.

Lemma lcg_choice_empty (g : Lcg.G) (ps : option (list Q)) :
  Lcg.rng_choice g 0 ps = None.
Proof. reflexivity. Qed.

Lemma empty_mixture_fails_at_use_witness :
  Forall (fun r => r = Raise ValueError)
         (run Lcg.default_rng Lcg.rng_uniform Lcg.rng_choice Lcg.np_power
              [Next; Reset; Next]
              (MixedInfiniteDataset 42 (Lcg.default_rng 42) [] None)).
Proof.
  exact (proj1 (proj2 (@empty_mixture_fails_at_use
                         Lcg.G Lcg.default_rng Lcg.rng_uniform Lcg.rng_choice
                         Lcg.np_power lcg_choice_empty 42%Z
                         [Next; Reset; Next])
                      42%Z (Lcg.default_rng 42) None)).
Defined.

Lemma script_prints_restarted_sequences_witness :
  let m := reset Lcg.default_rng
             (MixedInfiniteDataset 42 (Lcg.default_rng 42)
                [ds2 Lcg.default_rng; ds5 Lcg.default_rng] None) in
  let xs := map (fun r => match r with Ok x => x | Raise _ => 0 end)
              (run Lcg.default_rng Lcg.rng_uniform Lcg.rng_choice
                   Lcg.np_power (repeat Next 10) m) in
  (ds6 Lcg.default_rng = Ok m /\
   run Lcg.default_rng Lcg.rng_uniform Lcg.rng_choice Lcg.np_power
       (repeat Next 10) m = map Ok xs /\
   (21 <= 21)%nat) /\
  script Lcg.default_rng Lcg.rng_uniform Lcg.rng_choice Lcg.np_power 21 =
  Some (map Print (firstn 6 xs) ++ [PrintReset] ++
        map Print (firstn 5 xs) ++ [PrintReset] ++ map Print xs,
        None).
Proof.
  intros m xs.
  assert (Hm : ds6 Lcg.default_rng = Ok m) by reflexivity.
  assert (Hrun : run Lcg.default_rng Lcg.rng_uniform Lcg.rng_choice
                     Lcg.np_power (repeat Next 10) m = map Ok xs)
    by (vm_compute; reflexivity).
  assert (Hfuel : (21 <= 21)%nat) by apply le_n.
  split; [repeat split; assumption|].
  exact (@script_prints_restarted_sequences
           Lcg.G Lcg.default_rng Lcg.rng_uniform Lcg.rng_choice Lcg.np_power
           m xs 21%nat Hm Hrun Hfuel).
Defined.

End Infinite.

(** ** Finite datasets: indexing, concatenation, reset *)

Module FiniteTheory.

Import Finite.
Local Open Scope Z_scope.

Lemma getitem_mixed (ds : list FiniteDataset) (ls : list Z) (c s i : Z) :
  getitem (MixedFiniteDataset ds ls c s) i = walk ds ls i.
Proof. reflexivity. Qed.

Lemma wf_mixed (ds : list FiniteDataset) (ls : list Z) (c s : Z) :
  wf (MixedFiniteDataset ds ls c s) <->
  ls = map len ds /\ s = sum ls /\ all_wf ds.
Proof. reflexivity. Qed.

Lemma FiniteDataset_ind' (P : FiniteDataset -> Prop)
      (Hleaf : forall data c s, P (MyFiniteDataset data c s))
      (Hmixed : forall ds ls c s,
          Forall P ds -> P (MixedFiniteDataset ds ls c s)) :
  forall d, P d.
Proof.
  fix IH 1. intros [data c s | ds ls c s].
  - apply Hleaf.
  - apply Hmixed. induction ds as [|d l IHl]; constructor.
    + apply IH.
    + exact IHl.
Qed.

Lemma fold_left_add (l : list Z) :
  forall a, fold_left Z.add l a = a + sum l.
Proof.
  unfold sum. induction l as [|x l IH]; intro a; simpl.
  - lia.
  - rewrite (IH (a + x)), (IH x). lia.
Qed.

Lemma sum_cons (x : Z) (l : list Z) : sum (x :: l) = x + sum l.
Proof. unfold sum at 1. simpl. apply fold_left_add. Qed.

Lemma sum_app (l l' : list Z) : sum (l ++ l') = sum l + sum l'.
Proof.
  induction l as [|x l IH]; simpl.
  - reflexivity.
  - rewrite !sum_cons, IH. lia.
Qed.

Lemma sum_nonneg (l : list Z) : Forall (fun x => 0 <= x) l -> 0 <= sum l.
Proof.
  induction 1 as [|x l Hx Hl IH].
  - reflexivity.
  - rewrite sum_cons. lia.
Qed.

Lemma all_wf_Forall (ds : list FiniteDataset) : all_wf ds <-> Forall wf ds.
Proof.
  induction ds as [|d ds IH]; simpl.
  - split; constructor.
  - rewrite IH. split.
    + intros [H1 H2]. now constructor.
    + intro H. inversion H. now split.
Qed.

Lemma all_wf_app (ds ds' : list FiniteDataset) :
  all_wf ds -> all_wf ds' -> all_wf (ds ++ ds').
Proof. rewrite !all_wf_Forall. intros H H'. apply Forall_app. now split. Qed.

(** A length is never negative. *)
Lemma len_nonneg (d : FiniteDataset) : wf d -> 0 <= len d.
Proof.
  induction d as [data c s | ds ls c s IH] using FiniteDataset_ind'.
  - intros _. simpl. lia.
  - rewrite wf_mixed. intros (-> & -> & Hall). simpl.
    apply sum_nonneg. rewrite all_wf_Forall in Hall.
    induction IH as [|d l Hd Hl IHl]; simpl; constructor.
    + inversion Hall. auto.
    + inversion Hall. auto.
Qed.

Lemma lens_nonneg (ds : list FiniteDataset) :
  all_wf ds -> Forall (fun x => 0 <= x) (map len ds).
Proof.
  induction ds as [|d ds IH]; simpl; intro H; constructor.
  - apply len_nonneg. tauto.
  - apply IH. tauto.
Qed.

(** The objects the constructors and [+] build are well formed. *)
Lemma wf_MyFiniteDataset_of (data : list Z) : wf (MyFiniteDataset_of data).
Proof. reflexivity. Qed.

Lemma wf_MixedFiniteDataset_init (ds : list FiniteDataset) :
  all_wf ds -> wf (MixedFiniteDataset_init ds).
Proof.
  intro H. unfold MixedFiniteDataset_init. rewrite wf_mixed. auto.
Qed.

(** *** The walk over the children *)

Lemma walk_app_l (ds ds' : list FiniteDataset) :
  forall i, 0 <= i < sum (map len ds) ->
  walk (ds ++ ds') (map len (ds ++ ds')) i = walk ds (map len ds) i.
Proof.
  induction ds as [|d ds IH]; intros i Hi; simpl in *.
  - unfold sum in Hi. simpl in Hi. lia.
  - rewrite sum_cons in Hi.
    destruct (Z.ltb_spec i (len d)); [reflexivity|].
    apply IH. lia.
Qed.

Lemma walk_app_r (ds ds' : list FiniteDataset) :
  all_wf ds ->
  forall i, sum (map len ds) <= i ->
  walk (ds ++ ds') (map len (ds ++ ds')) i =
  walk ds' (map len ds') (i - sum (map len ds)).
Proof.
  induction ds as [|d ds IH]; intros Hwf i Hi; simpl in *.
  - unfold sum. simpl. now rewrite Z.sub_0_r.
  - rewrite sum_cons in *. destruct Hwf as [Hd Hds].
    pose proof (len_nonneg d Hd) as H0.
    pose proof (sum_nonneg (lens_nonneg ds Hds)) as H1.
    destruct (Z.ltb_spec i (len d)); [lia|].
    rewrite IH by (auto; lia). f_equal. lia.
Qed.

(** Past the last child the loop ends and the method returns [None]. *)
Lemma walk_past_end (ds : list FiniteDataset) :
  all_wf ds ->
  forall i, sum (map len ds) <= i -> walk ds (map len ds) i = Ok VNone.
Proof.
  intros Hwf i Hi.
  pose proof (walk_app_r ds [] Hwf Hi) as H.
  rewrite app_nil_r in H. exact H.
Qed.

Lemma mixed_getitem_past_end (ds : list FiniteDataset) (ls : list Z)
      (c s i : Z) :
  wf (MixedFiniteDataset ds ls c s) -> s <= i ->
  getitem (MixedFiniteDataset ds ls c s) i = Ok VNone.
Proof.
  rewrite wf_mixed, getitem_mixed. intros (-> & -> & Hall) Hi.
  now apply walk_past_end.
Qed.

(** An index in [0, length) is served and yields an element. *)
Lemma getitem_in_range (d : FiniteDataset) :
  wf d -> forall i, 0 <= i < len d -> exists z, getitem d i = Ok (VInt z).
Proof.
  induction d as [data c s | ds ls c s IH] using FiniteDataset_ind'.
  - intros _ i Hi. simpl in *. unfold list_getitem.
    destruct (Z.ltb_spec i 0); [lia|].
    destruct (Z.leb_spec 0 i); [|lia].
    destruct (Z.ltb_spec i (Z.of_nat (length data))); [|lia]. simpl.
    destruct (nth_error data (Z.to_nat i)) as [x|] eqn:E.
    + now exists x.
    + apply nth_error_None in E. lia.
  - rewrite wf_mixed. intros (-> & -> & Hall) i Hi.
    rewrite getitem_mixed. simpl in Hi. clear c. revert i Hi.
    induction IH as [|d l Hd Hl IHl]; intros i Hi; simpl in *.
    + unfold sum in Hi. simpl in Hi. lia.
    + rewrite sum_cons in Hi. destruct Hall as [Hwd Hwl].
      destruct (Z.ltb_spec i (len d)).
      * apply Hd; [exact Hwd | lia].
      * apply IHl; [exact Hwl | lia].
Qed.

(** *** Indexing a leaf *)

Lemma leaf_getitem_eq (data : list Z) (c s i : Z) :
  getitem (MyFiniteDataset data c s) i =
  if (- Z.of_nat (length data) <=? i) && (i <? Z.of_nat (length data))
  then Ok (VInt (nth (Z.to_nat (i mod Z.of_nat (length data))) data 0))
  else Raise IndexError.
Proof.
  simpl. unfold list_getitem.
  set (n := Z.of_nat (length data)).
  assert (Hn : n = Z.of_nat (length data)) by reflexivity.
  destruct (Z.ltb_spec i 0) as [Hneg|Hpos].
  - destruct (Z.leb_spec (- n) i) as [Hlo|Hlo].
    + destruct (Z.ltb_spec i n); [|lia].
      destruct (Z.leb_spec 0 (i + n)); [|lia].
      destruct (Z.ltb_spec (i + n) n); [|lia]. simpl.
      assert (Hm : i mod n = i + n)
        by (symmetry; apply Z.mod_unique with (q := -1); lia).
      rewrite Hm.
      rewrite (nth_error_nth' data 0) by lia. reflexivity.
    + destruct (Z.leb_spec 0 (i + n)); [lia|]. reflexivity.
  - destruct (Z.leb_spec (- n) i); [|lia].
    destruct (Z.leb_spec 0 i); [|lia].
    destruct (Z.ltb_spec i n) as [Hlt|Hge]; simpl; [|reflexivity].
    rewrite Z.mod_small by lia.
    rewrite (nth_error_nth' data 0) by lia. reflexivity.
Qed.

(** C4, as the code has it, for a leaf over a list of [n] elements.
    [get(index)] raises [IndexError] exactly when [index >= n] or
    [index < -n], so [get(length())] raises; an index in [[-n, 0)] counts from
    the end of the list, so [get(-1)] is [get(n - 1)], the last element, and
    raises only when the list is empty. *)
Theorem leaf_getitem_index_error (data : list Z) (c s i : Z) :
  getitem (MyFiniteDataset data c s) i =
    (if (- Z.of_nat (length data) <=? i) && (i <? Z.of_nat (length data))
     then Ok (VInt (nth (Z.to_nat (i mod Z.of_nat (length data))) data 0))
     else Raise IndexError) /\
  (getitem (MyFiniteDataset data c s) i = Raise IndexError <->
   len (MyFiniteDataset data c s) <= i \/
   i < - len (MyFiniteDataset data c s)) /\
  getitem (MyFiniteDataset data c s) (len (MyFiniteDataset data c s)) =
    Raise IndexError /\
  getitem (MyFiniteDataset data c s) (-1) =
    getitem (MyFiniteDataset data c s) (len (MyFiniteDataset data c s) - 1).
Proof.
  split; [apply leaf_getitem_eq|].
  split; [|split].
  - rewrite leaf_getitem_eq. cbn [len].
    destruct (Z.leb_spec (- Z.of_nat (length data)) i);
      destruct (Z.ltb_spec i (Z.of_nat (length data))); simpl;
      split; intro Hx; try discriminate; try lia; reflexivity.
  - rewrite leaf_getitem_eq. cbn [len].
    rewrite Z.ltb_irrefl, andb_false_r. reflexivity.
  - rewrite !leaf_getitem_eq. cbn [len].
    set (n := Z.of_nat (length data)).
    assert (Hn : 0 <= n) by apply Nat2Z.is_nonneg.
    destruct (Z.eq_dec n 0) as [H0|H0].
    + rewrite H0. reflexivity.
    + destruct (Z.leb_spec (- n) (-1)); [|lia].
      destruct (Z.ltb_spec (-1) n); [|lia].
      destruct (Z.leb_spec (- n) (n - 1)); [|lia].
      destruct (Z.ltb_spec (n - 1) n); [|lia]. simpl.
      assert (Hm : (-1) mod n = n - 1)
        by (symmetry; apply Z.mod_unique with (q := -1); lia).
      rewrite Hm, (Z.mod_small (n - 1)) by lia. reflexivity.
Qed.

(** C4 as the specification words it fails on the leaf of the source:
    [MyFiniteDataset()[-1]] is [3]. *)
Lemma leaf_getitem_minus_one_is_last :
  getitem MyFiniteDataset_init (-1) = Ok (VInt 3) /\
  getitem MyFiniteDataset_init (-1) <> Raise IndexError.
Proof. split; [reflexivity | discriminate]. Qed.

(** *** Concatenation *)

(** Where [+] returns, it returns the concatenation: lengths add up and an
    index is served by the operand that holds it.  [+] returns when the left
    operand is a leaf or both operands are mixtures. *)
Lemma add_length_getitem (a b c : FiniteDataset) :
  wf a -> wf b -> add a b = Ok c ->
  wf c /\
  len c = len a + len b /\
  (forall i, 0 <= i < len a -> getitem c i = getitem a i) /\
  (forall i, len a <= i < len a + len b ->
             getitem c i = getitem b (i - len a)).
Proof.
  intros Ha Hb Hadd.
  destruct a as [data ca sa | dsa lsa ca sa].
  - injection Hadd as <-.
    split; [apply wf_MixedFiniteDataset_init; simpl; auto|].
    split; [cbn [len MixedFiniteDataset_init map];
            rewrite !sum_cons; unfold sum; simpl; lia|].
    split; intros i Hi; unfold MixedFiniteDataset_init;
      rewrite getitem_mixed; cbn [map walk].
    + destruct (Z.ltb_spec i (len (MyFiniteDataset data ca sa)));
        [reflexivity | lia].
    + destruct (Z.ltb_spec i (len (MyFiniteDataset data ca sa))); [lia|].
      destruct (Z.ltb_spec (i - len (MyFiniteDataset data ca sa)) (len b));
        [reflexivity | lia].
  - destruct b as [data cb sb | dsb lsb cb sb]; [discriminate|].
    injection Hadd as <-.
    rewrite wf_mixed in Ha, Hb.
    destruct Ha as (-> & -> & Hwa). destruct Hb as (-> & -> & Hwb).
    split; [apply wf_MixedFiniteDataset_init; now apply all_wf_app|].
    split; [cbn [len MixedFiniteDataset_init];
            now rewrite map_app, sum_app|].
    cbn [len]. unfold MixedFiniteDataset_init.
    split; intros i Hi; rewrite !getitem_mixed.
    + now apply walk_app_l.
    + apply walk_app_r; [exact Hwa | lia].
Qed.

(** Two mixtures concatenate to the mixture of both child lists, and on
    mixtures [+] is associative. *)
Lemma add_mixed_flattens (ds ds' : list FiniteDataset) (ls ls' : list Z)
      (c s c' s' : Z) :
  add (MixedFiniteDataset ds ls c s) (MixedFiniteDataset ds' ls' c' s') =
  Ok (MixedFiniteDataset_init (ds ++ ds')).
Proof. reflexivity. Qed.

Lemma add_mixed_assoc (ds1 ds2 ds3 : list FiniteDataset)
      (l1 l2 l3 : list Z) (c1 s1 c2 s2 c3 s3 : Z) :
  (x <- add (MixedFiniteDataset ds1 l1 c1 s1)
            (MixedFiniteDataset ds2 l2 c2 s2) ;;
   add x (MixedFiniteDataset ds3 l3 c3 s3)) =
  (y <- add (MixedFiniteDataset ds2 l2 c2 s2)
            (MixedFiniteDataset ds3 l3 c3 s3) ;;
   add (MixedFiniteDataset ds1 l1 c1 s1) y).
Proof. simpl. now rewrite app_assoc. Qed.

(** The concatenation of the script, [ds4 = ds + ds3]. *)
Example ds4_scenario :
  exists ds4,
    add MyFiniteDataset_init MyFiniteDataset_init = Ok ds4 /\
    len ds4 = 8 /\
    map (getitem ds4) [0; 3; 4; 7] =
      [Ok (VInt 0); Ok (VInt 3); Ok (VInt 0); Ok (VInt 3)] /\
    fst (iterate ds4) =
      map VInt [0; 1; 2; 3; 0; 1; 2; 3] /\
    fst (next (snd (iterate ds4))) = Raise StopIteration.
Proof. eexists. repeat split. Qed.

(** C5 at [(ds + ds3) + ds].  The left operand is a mixture of length 8 and
    the right operand a leaf of length 4; [MixedFiniteDataset.__add__] reads
    [other.datasets] and raises [AttributeError], so there is no
    concatenation whose length could be 12. *)
Theorem add_mixture_leaf_has_no_length :
  exists ds4,
    add MyFiniteDataset_init MyFiniteDataset_init = Ok ds4 /\
    wf ds4 /\ wf MyFiniteDataset_init /\
    len ds4 + len MyFiniteDataset_init = 12 /\
    add ds4 MyFiniteDataset_init = Raise AttributeError.
Proof. eexists. repeat split. Qed.

(** C6 at three leaves.  [(a + b) + c] raises [AttributeError], and
    [a + (b + c)] keeps the mixture [b + c] as one child: the child list is
    [[a, b + c]], not [[a, b, c]]. *)
Theorem add_neither_associative_nor_flat :
  let a := MyFiniteDataset_init in
  (x <- add a a ;; add x a) = Raise AttributeError /\
  (y <- add a a ;; add a y) =
    Ok (MixedFiniteDataset_init [a; MixedFiniteDataset_init [a; a]]) /\
  MixedFiniteDataset_init [a; MixedFiniteDataset_init [a; a]] <>
  MixedFiniteDataset_init [a; a; a].
Proof. repeat split. discriminate. Qed.

(** *** Reset *)

Lemma reset_is_identity (d : FiniteDataset) : reset d = d.
Proof. reflexivity. Qed.

(** C2 at a fresh [MyFiniteDataset()]: [reset()] and two elements give
    [[0, 1]]; [reset()] again and two elements give [[2, 3]]. *)
Theorem finite_reset_then_take_differs :
  fst (take 2 (reset MyFiniteDataset_init)) = [VInt 0; VInt 1] /\
  fst (take 2 (reset (snd (take 2 (reset MyFiniteDataset_init))))) =
    [VInt 2; VInt 3].
Proof. split; reflexivity. Qed.

(** C3 at [MyFiniteDataset()] after one [next], and at [ds + ds3] after a
    full iteration: [reset()] leaves the cursor at 1, respectively at 8, and
    iterating the reset mixture yields nothing. *)
Theorem finite_reset_keeps_cursor :
  idx (snd (next MyFiniteDataset_init)) = 1 /\
  idx (reset (snd (next MyFiniteDataset_init))) = 1 /\
  let ds4 := MixedFiniteDataset_init
               [MyFiniteDataset_init; MyFiniteDataset_init] in
  fst (iterate ds4) = map VInt [0; 1; 2; 3; 0; 1; 2; 3] /\
  idx (reset (snd (iterate ds4))) = 8 /\
  fst (iterate (reset (snd (iterate ds4)))) = [].
Proof. repeat split. Qed.

End FiniteTheory.

(** ** Finite datasets: iteration *)

Module FiniteIteration.

Import Finite FiniteTheory.
Local Open Scope Z_scope.

(** *** The cursor *)

Lemma set_idx_idx (d : FiniteDataset) : set_idx d (idx d) = d.
Proof. destruct d; reflexivity. Qed.

Lemma set_idx_twice (d : FiniteDataset) (i j : Z) :
  set_idx (set_idx d i) j = set_idx d j.
Proof. destruct d; reflexivity. Qed.

Lemma idx_set_idx (d : FiniteDataset) (i : Z) : idx (set_idx d i) = i.
Proof. destruct d; reflexivity. Qed.

Lemma size_set_idx (d : FiniteDataset) (i : Z) : size (set_idx d i) = size d.
Proof. destruct d; reflexivity. Qed.

Lemma len_set_idx (d : FiniteDataset) (i : Z) : len (set_idx d i) = len d.
Proof. destruct d; reflexivity. Qed.

Lemma getitem_set_idx (d : FiniteDataset) (i j : Z) :
  getitem (set_idx d i) j = getitem d j.
Proof. destruct d; reflexivity. Qed.

Lemma wf_set_idx (d : FiniteDataset) (i : Z) : wf d -> wf (set_idx d i).
Proof. destruct d; simpl; auto. Qed.

Lemma wf_size (d : FiniteDataset) : wf d -> size d = len d.
Proof. destruct d; simpl; [auto | reflexivity]. Qed.

(** X3.  Iterating moves the cursor and nothing else: after [take n] the
    object is the one it was with [idx] advanced by the number of elements
    yielded, so its length and every [get] are as before, and the children
    of a mixture (their cursors included) are never touched. *)
Theorem take_moves_cursor_only (n : nat) (d : FiniteDataset) :
  snd (take n d) = set_idx d (idx d + Z.of_nat (length (fst (take n d)))) /\
  len (snd (take n d)) = len d /\
  (forall i, getitem (snd (take n d)) i = getitem d i).
Proof.
  assert (H : snd (take n d) =
              set_idx d (idx d + Z.of_nat (length (fst (take n d))))).
  { revert d. induction n as [|n IH]; intro d.
    - simpl. now rewrite Z.add_0_r, set_idx_idx.
    - cbn [take]. unfold next.
      destruct (size d <=? idx d).
      + simpl. now rewrite Z.add_0_r, set_idx_idx.
      + destruct (getitem d (idx d)) as [v|e].
        * specialize (IH (set_idx d (idx d + 1))).
          destruct (take n (set_idx d (idx d + 1))) as [vs d''].
          cbn [fst snd length] in *.
          rewrite IH, set_idx_twice, idx_set_idx. f_equal. lia.
        * simpl. now rewrite Z.add_0_r, set_idx_idx. }
  split; [exact H|]. rewrite H.
  split; [apply len_set_idx | intro i; apply getitem_set_idx].
Qed.

(** *** Iterating is indexing *)

Lemma take_indexing (n : nat) :
  forall d, wf d -> 0 <= idx d -> Z.of_nat n <= size d - idx d ->
  map Ok (fst (take n d)) =
    map (fun k => getitem d (idx d + Z.of_nat k)) (seq 0 n) /\
  snd (take n d) = set_idx d (idx d + Z.of_nat n).
Proof.
  induction n as [|n IH]; intros d Hwf H0 Hn.
  - simpl. now rewrite Z.add_0_r, set_idx_idx.
  - cbn [take]. unfold next.
    destruct (Z.leb_spec (size d) (idx d)); [lia|].
    destruct (@getitem_in_range d Hwf (idx d)) as [z Hz];
      [rewrite <- (wf_size d Hwf); lia|].
    rewrite Hz.
    destruct (IH (set_idx d (idx d + 1))) as [IH1 IH2].
    + now apply wf_set_idx.
    + rewrite idx_set_idx. lia.
    + rewrite idx_set_idx, size_set_idx. lia.
    + destruct (take n (set_idx d (idx d + 1))) as [vs d''].
      cbn [fst snd] in *. split.
      * cbn [map seq]. rewrite Z.add_0_r, Hz. f_equal.
        rewrite IH1, <- seq_shift, map_map. apply map_ext.
        intro k. rewrite idx_set_idx, getitem_set_idx. f_equal. lia.
      * rewrite IH2, set_idx_twice, idx_set_idx. f_equal. lia.
Qed.

(** X1.  Iterating a well-formed finite dataset is indexing it: from a cursor
    in [[0, size]] a full iteration yields [get(idx)], [get(idx + 1)], ... up
    to [get(size - 1)], exactly [size - idx] elements and no exception, leaves
    the cursor at [size], and the next [next()] raises [StopIteration]. *)
Theorem iterate_is_indexing (d : FiniteDataset) :
  wf d -> 0 <= idx d <= size d ->
  map Ok (fst (iterate d)) =
    map (fun k => getitem d (idx d + Z.of_nat k))
        (seq 0 (Z.to_nat (size d - idx d))) /\
  length (fst (iterate d)) = Z.to_nat (size d - idx d) /\
  idx (snd (iterate d)) = size d /\
  fst (next (snd (iterate d))) = Raise StopIteration.
Proof.
  intros Hwf Hidx. unfold iterate.
  destruct (take_indexing (Z.to_nat (size d - idx d)) d Hwf) as [H1 H2];
    [lia | lia |].
  split; [exact H1|].
  split.
  - rewrite <- (length_map Ok), H1, length_map. apply length_seq.
  - rewrite H2. split.
    + rewrite idx_set_idx. lia.
    + unfold next. rewrite size_set_idx, idx_set_idx.
      destruct (Z.leb_spec (size d) (idx d + Z.of_nat (Z.to_nat (size d - idx d))));
        [reflexivity | lia].
Qed.

(** X2.  An exhausted finite dataset stays exhausted: once the cursor has
    reached [size], every later [next()] raises [StopIteration] and no call of
    [next()] or [reset()] changes the object. *)
Theorem exhausted_forever (d : FiniteDataset) (ops : list op) :
  size d <= idx d ->
  snd (run ops d) = d /\
  Forall (fun r => r = Raise StopIteration) (fst (run ops d)).
Proof.
  intro H. induction ops as [|[|] ops IH].
  - split; [reflexivity | constructor].
  - cbn [run]. unfold next.
    destruct (Z.leb_spec (size d) (idx d)); [|lia].
    destruct (run ops d) as [rs d'']. cbn [fst snd] in *.
    destruct IH as [IH1 IH2]. split; [exact IH1 | now constructor].
  - exact IH.
Qed.

(** *** A mixture and its children *)

Lemma all_wf_app_inv (ds ds' : list FiniteDataset) :
  all_wf (ds ++ ds') -> all_wf ds /\ all_wf ds'.
Proof. rewrite !all_wf_Forall. apply Forall_app. Qed.

(** X4.  A mixture routes an index by cumulative length: the index that lies
    [j] places into child [c], after all the elements of the children before
    it, is answered by [c.get(j)]. *)
Theorem mixture_routes_by_cumulative_length
        (pre post : list FiniteDataset) (c : FiniteDataset) (j : Z) :
  all_wf (pre ++ c :: post) -> 0 <= j < len c ->
  getitem (MixedFiniteDataset_init (pre ++ c :: post))
          (sum (map len pre) + j) = getitem c j.
Proof.
  intros Hwf Hj. destruct (all_wf_app_inv _ _ Hwf) as [Hpre _].
  unfold MixedFiniteDataset_init. rewrite getitem_mixed.
  rewrite walk_app_r by (auto; lia).
  replace (sum (map len pre) + j - sum (map len pre)) with j by lia.
  cbn [map walk]. destruct (Z.ltb_spec j (len c)); [reflexivity | lia].
Qed.

Lemma seq_add (n : nat) : forall a, seq a n = map (Nat.add a) (seq 0 n).
Proof.
  induction n as [|n IH]; intro a; [reflexivity|].
  cbn [seq map]. rewrite Nat.add_0_r. f_equal.
  rewrite (IH (S a)), <- seq_shift, map_map. apply map_ext. intro k. lia.
Qed.

Lemma map_Ok_inj (A : Type) (l l' : list A) :
  map (@Ok A) l = map (@Ok A) l' -> l = l'.
Proof.
  revert l'. induction l as [|x l IH]; intros [|y l'] H;
    try discriminate; [reflexivity|].
  injection H as -> H. f_equal. now apply IH.
Qed.

(** All the elements, by index. *)
Local Abbreviation items d :=
  (map (fun k => getitem d (Z.of_nat k)) (seq 0 (Z.to_nat (len d)))).

Lemma iterate_indexing_aux (d : FiniteDataset) :
  wf d ->
  map Ok (fst (iterate (set_idx d 0))) = items d /\
  snd (iterate (set_idx d 0)) = set_idx d (size d).
Proof.
  intro Hwf. unfold iterate.
  rewrite idx_set_idx, size_set_idx, Z.sub_0_r, (wf_size d Hwf).
  pose proof (len_nonneg d Hwf) as Hlen.
  destruct (take_indexing (Z.to_nat (len d)) (set_idx d 0)) as [H1 H2].
  - now apply wf_set_idx.
  - rewrite idx_set_idx. lia.
  - rewrite idx_set_idx, size_set_idx, (wf_size d Hwf). lia.
  - rewrite idx_set_idx in *. split.
    + rewrite H1. apply map_ext. intro k. now rewrite getitem_set_idx.
    + rewrite H2, set_idx_twice. f_equal. lia.
Qed.

Lemma iterate_items (d : FiniteDataset) :
  wf d -> map Ok (fst (iterate (set_idx d 0))) = items d.
Proof.
  intro Hwf.
  destruct (iterate_indexing_aux d Hwf) as [H _]. exact H.
Qed.

Lemma items_mixed_cons (c : FiniteDataset) (ds : list FiniteDataset) :
  wf c -> all_wf ds ->
  items (MixedFiniteDataset_init (c :: ds)) =
  items c ++ items (MixedFiniteDataset_init ds).
Proof.
  intros Hc Hds.
  pose proof (len_nonneg c Hc) as H0.
  pose proof (sum_nonneg (lens_nonneg ds Hds)) as H1.
  cbn [len MixedFiniteDataset_init map]. rewrite sum_cons.
  rewrite Z2Nat.inj_add by lia.
  rewrite seq_app, map_app. f_equal.
  - apply map_ext_in. intros k Hk. apply in_seq in Hk.
    unfold MixedFiniteDataset_init. rewrite getitem_mixed. cbn [map walk].
    destruct (Z.ltb_spec (Z.of_nat k) (len c)); [reflexivity | lia].
  - cbn [Nat.add]. rewrite seq_add, map_map. apply map_ext.
    intro k. unfold MixedFiniteDataset_init. rewrite !getitem_mixed.
    cbn [map walk].
    destruct (Z.ltb_spec (Z.of_nat (Z.to_nat (len c) + k)) (len c)); [lia|].
    f_equal. lia.
Qed.

(** X5.  A mixture iterates as its children one after the other, each from
    its first element: the cursors of the children play no part. *)
Theorem mixture_iterates_children_in_order (ds : list FiniteDataset) :
  all_wf ds ->
  fst (iterate (MixedFiniteDataset_init ds)) =
  flat_map (fun c => fst (iterate (set_idx c 0))) ds.
Proof.
  intro Hwf. apply map_Ok_inj.
  assert (Hm : forall l, all_wf l ->
             map Ok (fst (iterate (MixedFiniteDataset_init l))) =
             items (MixedFiniteDataset_init l)).
  { intros l Hl.
    exact (iterate_items (MixedFiniteDataset_init l)
                         (wf_MixedFiniteDataset_init l Hl)). }
  induction ds as [|c ds IH].
  - reflexivity.
  - destruct Hwf as [Hc Hds]. cbn [flat_map]. rewrite map_app.
    rewrite <- (IH Hds), (iterate_items c Hc), (Hm ds Hds).
    rewrite (Hm (c :: ds)) by (simpl; auto).
    now apply items_mixed_cons.
Qed.

(** X6.  Outside [[0, length)] a mixture does not raise by itself.  Past the
    end its loop runs out and [get] returns [None]; a negative index is
    handed unchanged to the first child, so that [m[-1]] is the last element
    of the first child; with no child every index gives [None]. *)
Theorem mixture_getitem_outside_range
        (ds : list FiniteDataset) (ls : list Z) (c s : Z) :
  wf (MixedFiniteDataset ds ls c s) ->
  (forall i, s <= i -> getitem (MixedFiniteDataset ds ls c s) i = Ok VNone) /\
  (forall i, i < 0 ->
     getitem (MixedFiniteDataset ds ls c s) i =
     match ds with
     | [] => Ok VNone
     | first :: _ => getitem first i
     end).
Proof.
  intro Hwf. split.
  - intros i Hi. now apply mixed_getitem_past_end.
  - intros i Hi. rewrite wf_mixed in Hwf. destruct Hwf as (-> & _ & Hall).
    rewrite getitem_mixed. destruct ds as [|first ds]; [reflexivity|].
    cbn [map walk]. destruct Hall as [Hf _].
    pose proof (len_nonneg first Hf).
    destruct (Z.ltb_spec i (len first)); [reflexivity | lia].
Qed.

(** X7.  Every index in [[0, length)] of a well-formed finite dataset, leaf
    or mixture at any depth, is answered with an element, never [None] and
    never an exception; and it is the element that an iteration from the
    start yields at that position. *)
Theorem in_range_index_is_served (d : FiniteDataset) (i : Z) :
  wf d -> 0 <= i < len d ->
  exists z,
    getitem d i = Ok (VInt z) /\
    nth_error (fst (iterate (set_idx d 0))) (Z.to_nat i) = Some (VInt z).
Proof.
  intros Hwf Hi. destruct (@getitem_in_range d Hwf i Hi) as [z Hz].
  exists z. split; [exact Hz|].
  pose proof (iterate_items d Hwf) as Hit.
  assert (Hn : nth_error (items d) (Z.to_nat i) = Some (getitem d i)).
  { rewrite nth_error_map, nth_error_seq.
    destruct (Nat.ltb_spec (Z.to_nat i) (Z.to_nat (len d))); [|lia].
    cbn. now rewrite Z2Nat.id by lia. }
  rewrite <- Hit, nth_error_map, Hz in Hn.
  destruct (nth_error (fst (iterate (set_idx d 0))) (Z.to_nat i)) as [v|];
    [|discriminate].
  cbn in Hn. congruence.
Qed.

Lemma add_idx (a b c : FiniteDataset) : add a b = Ok c -> idx c = 0.
Proof.
  destruct a; [intro H; injection H as <-; reflexivity|].
  destruct b; [discriminate|]. intro H. injection H as <-. reflexivity.
Qed.

(** X8.  Where [a + b] returns (the left operand is a leaf, or both are
    mixtures), the sum is well formed, its length is the sum of the lengths,
    an index below [len(a)] is answered by [a] and one from [len(a)] on by
    [b], and iterating the sum yields all of [a] and then all of [b]. *)
Theorem add_is_concatenation (a b c : FiniteDataset) :
  wf a -> wf b -> add a b = Ok c ->
  wf c /\
  len c = len a + len b /\
  (forall i, 0 <= i < len a -> getitem c i = getitem a i) /\
  (forall i, len a <= i < len a + len b ->
             getitem c i = getitem b (i - len a)) /\
  fst (iterate c) =
    fst (iterate (set_idx a 0)) ++ fst (iterate (set_idx b 0)).
Proof.
  intros Ha Hb Hadd.
  destruct (add_length_getitem a b Ha Hb Hadd) as (Hc & Hlen & Hl & Hr).
  repeat (split; [assumption|]).
  apply map_Ok_inj. rewrite map_app, !iterate_items by assumption.
  rewrite <- (set_idx_idx c), (add_idx a b Hadd), iterate_items by assumption.
  pose proof (len_nonneg a Ha) as H0. pose proof (len_nonneg b Hb) as H1.
  rewrite Hlen, Z2Nat.inj_add by lia.
  rewrite seq_app, map_app. f_equal.
  - apply map_ext_in. intros k Hk. apply in_seq in Hk. apply Hl. lia.
  - cbn [Nat.add]. rewrite seq_add, map_map. apply map_ext_in.
    intros k Hk. apply in_seq in Hk. cbn beta.
    rewrite Hr by lia. f_equal. lia.
Qed.

(** *** The finite datasets of the script *)

Lemma iterate_is_indexing_witness :
  let ds4 := MixedFiniteDataset_init
               [MyFiniteDataset_init; MyFiniteDataset_init] in
  let d := snd (take 3 ds4) in
  (wf d /\ 0 <= idx d <= size d) /\
  length (fst (iterate d)) = Z.to_nat (size d - idx d).
Proof.
  intros ds4 d.
  assert (Hwf : wf d) by (repeat split).
  assert (Hidx : 0 <= idx d <= size d) by (cbv; split; discriminate).
  split; [split; assumption|].
  exact (proj1 (proj2 (@iterate_is_indexing d Hwf Hidx))).
Defined.

Lemma exhausted_forever_witness :
  let d := snd (iterate MyFiniteDataset_init) in
  size d <= idx d /\
  fst (run [Next; Reset; Next] d) =
    [Raise StopIteration; Raise StopIteration].
Proof.
  intro d.
  assert (H : size d <= idx d) by (cbv; discriminate).
  split; [exact H|].
  pose proof (proj2 (@exhausted_forever d [Next; Reset; Next] H)) as HF.
  inversion HF as [|r rs Hr Hrs Heq]. inversion Hrs as [|r' rs' Hr' Hrs' Heq'].
  inversion Hrs' as [Hnil|]. now subst.
Defined.

Lemma mixture_routes_by_cumulative_length_witness :
  let ds := MyFiniteDataset_init in
  (all_wf ([ds] ++ ds :: [ds]) /\ 0 <= 2 < len ds) /\
  getitem (MixedFiniteDataset_init ([ds] ++ ds :: [ds]))
          (sum (map len [ds]) + 2) = getitem ds 2.
Proof.
  intro ds.
  assert (Hwf : all_wf ([ds] ++ ds :: [ds])) by (repeat split).
  assert (Hj : 0 <= 2 < len ds) by (cbv; split; [discriminate | reflexivity]).
  split; [split; assumption|].
  exact (@mixture_routes_by_cumulative_length [ds] [ds] ds 2 Hwf Hj).
Defined.

Lemma mixture_iterates_children_in_order_witness :
  let ds := [snd (take 2 MyFiniteDataset_init);
             MixedFiniteDataset_init [MyFiniteDataset_init]] in
  all_wf ds /\
  fst (iterate (MixedFiniteDataset_init ds)) =
  flat_map (fun c => fst (iterate (set_idx c 0))) ds.
Proof.
  intro ds.
  assert (Hwf : all_wf ds) by (repeat split).
  split; [exact Hwf|].
  exact (@mixture_iterates_children_in_order ds Hwf).
Defined.

Lemma mixture_getitem_outside_range_witness :
  let ds := MyFiniteDataset_init in
  wf (MixedFiniteDataset [ds; ds] [4; 4] 0 8) /\
  getitem (MixedFiniteDataset [ds; ds] [4; 4] 0 8) 8 = Ok VNone.
Proof.
  intro ds.
  assert (Hwf : wf (MixedFiniteDataset [ds; ds] [4; 4] 0 8))
    by (repeat split).
  split; [exact Hwf|].
  apply (proj1 (@mixture_getitem_outside_range [ds; ds] [4; 4] 0 8 Hwf)).
  apply Z.le_refl.
Defined.

Lemma in_range_index_is_served_witness :
  let ds4 := MixedFiniteDataset_init
               [MyFiniteDataset_init; MyFiniteDataset_init] in
  (wf ds4 /\ 0 <= 5 < len ds4) /\
  exists z, getitem ds4 5 = Ok (VInt z).
Proof.
  intro ds4.
  assert (Hwf : wf ds4) by (repeat split).
  assert (Hi : 0 <= 5 < len ds4) by (cbv; split; [discriminate | reflexivity]).
  split; [split; assumption|].
  destruct (@in_range_index_is_served ds4 5 Hwf Hi) as (z & Hz & _).
  now exists z.
Defined.

Lemma add_is_concatenation_witness :
  let a := MyFiniteDataset_of [7; 8] in
  let b := MixedFiniteDataset_init
             [MyFiniteDataset_init; MyFiniteDataset_init] in
  let c := MixedFiniteDataset_init [a; b] in
  (wf a /\ wf b /\ add a b = Ok c) /\
  len c = len a + len b.
Proof.
  intros a b c.
  assert (Ha : wf a) by reflexivity.
  assert (Hb : wf b) by (repeat split).
  assert (Hadd : add a b = Ok c) by reflexivity.
  split; [repeat split; assumption|].
  exact (proj1 (proj2 (@add_is_concatenation a b c Ha Hb Hadd))).
Defined.

End FiniteIteration.
